(** * super-basic-mcp-server: a shallow embedding of [main.py]

    The server keeps two process-wide dictionaries, [pending_requests]
    (tracking identifier -> client identifier) and [subscriptions]
    (client identifier -> list of pending events).  A POST to [/jsonrpc]
    is answered by [jsonrpc_endpoint]; an accepted [add] starts a
    background thread running [process_add], which hands its result to
    [notify_client]; a GET to [/events/<client_id>] is served by the
    generator [generate_sse].

    Python values are modelled as they are at run time: the parsed JSON
    body is a [json] value, dictionaries are [gmap]s, Python lists are
    objects in a heap (two names may refer to one list), exceptions are
    explicit, and the two dictionaries, the heap, the started threads and
    the open event streams form the state of one [server]. *)

From Stdlib Require Import ZArith Ascii String List Lia.
From Stdlib Require Import Floats.PrimFloat Floats.SpecFloat Floats.FloatOps.
From stdpp Require Import gmap strings list fin_maps.

Set Warnings "-register-all".

Local Open Scope string_scope.
Local Open Scope list_scope.
Local Open Scope Z_scope.

(** ** Python values *)

Module Py.

(** What [request.json] yields: [None], [bool], [int] (unbounded),
    [float] (binary64), [str], [list] and [dict] with [str] keys. *)
Inductive json : Type :=
| JNull
| JBool (b : bool)
| JInt (n : Z)
| JFloat (f : float)
| JStr (s : string)
| JArr (l : list json)
| JObj (m : gmap string json).

(** The exceptions the modelled code can raise; the last two are
    werkzeug's, raised by [request.json]. *)
Inductive pyerr : Type :=
| TypeError
| KeyError
| AttributeError
| OverflowError
| ValueError
| IndexError
| RecursionError
| BadRequest
| UnsupportedMediaType.

Inductive result (A : Type) : Type :=
| Ok (a : A)
| Raise (e : pyerr).
Arguments Ok {A} a.
Arguments Raise {A} e.

Definition rbind {A B : Type} (r : result A) (k : A -> result B) : result B :=
  match r with
  | Ok a => k a
  | Raise e => Raise e
  end.

(** [bool(v)]: the truth value Python's [not v] tests. *)
Definition truthy (v : json) : bool :=
  match v with
  | JNull => false
  | JBool b => b
  | JInt n => negb (n =? 0)%Z
  | JFloat f => negb (PrimFloat.eqb f 0%float)
  | JStr s => negb (String.eqb s "")
  | JArr l => match l with [] => false | _ :: _ => true end
  | JObj m => negb (Nat.eqb (size m) 0)
  end.

(** [v == c] for a [str] constant [c]: only a [str] equals a [str]. *)
Definition eq_str (v : json) (c : string) : bool :=
  match v with
  | JStr s => String.eqb s c
  | _ => false
  end.

(** [k in s] on two [str]: substring test. *)
Fixpoint is_substring (k s : string) : bool :=
  if String.prefix k s then true
  else match s with
       | EmptyString => false
       | String _ s' => is_substring k s'
       end.

(** [k in v] for a [str] key [k]: key membership on a [dict], element
    equality on a [list], substring on a [str]; the other JSON types are
    not containers. *)
Definition contains (k : string) (v : json) : result bool :=
  match v with
  | JObj m => Ok (bool_decide (is_Some (m !! k)))
  | JArr l => Ok (existsb (fun x => eq_str x k) l)
  | JStr s => Ok (is_substring k s)
  | JNull | JBool _ | JInt _ | JFloat _ => Raise TypeError
  end.

(** [v[k]] for a [str] key [k]. *)
Definition getitem (v : json) (k : string) : result json :=
  match v with
  | JObj m => match m !! k with
              | Some x => Ok x
              | None => Raise KeyError
              end
  | _ => Raise TypeError
  end.

(** [v.get(k)] and [v.get(k, d)]: a method of [dict] only. *)
Definition get (v : json) (k : string) (d : json) : result json :=
  match v with
  | JObj m => Ok (default d (m !! k))
  | _ => Raise AttributeError
  end.

(** [float(n)] for an [int]: the nearest binary64 value, ties to even;
    [OverflowError] when that is out of range. *)
Definition float_of_int (n : Z) : result float :=
  match binary_normalize prec emax n 0 false with
  | S754_infinity _ => Raise OverflowError
  | sf => Ok (SF2Prim sf)
  end.

(** The numeric operand of [+]: [bool] is a subclass of [int]. *)
Inductive number : Type :=
| NInt (n : Z)
| NFloat (f : float).

Definition as_number (v : json) : option number :=
  match v with
  | JBool b => Some (NInt (Z.b2z b))
  | JInt n => Some (NInt n)
  | JFloat f => Some (NFloat f)
  | _ => None
  end.

Definition add_number (x y : number) : result json :=
  match x, y with
  | NInt a, NInt b => Ok (JInt (a + b))
  | NFloat a, NFloat b => Ok (JFloat (PrimFloat.add a b))
  | NInt a, NFloat b =>
      rbind (float_of_int a) (fun a' => Ok (JFloat (PrimFloat.add a' b)))
  | NFloat a, NInt b =>
      rbind (float_of_int b) (fun b' => Ok (JFloat (PrimFloat.add a b')))
  end.

(** [x + y] on JSON values: numbers add, [str] and [list] concatenate,
    everything else is a [TypeError]. *)
Definition add (x y : json) : result json :=
  match as_number x, as_number y with
  | Some a, Some b => add_number a b
  | _, _ =>
      match x, y with
      | JStr a, JStr b => Ok (JStr (a +:+ b))
      | JArr a, JArr b => Ok (JArr (a ++ b))
      | _, _ => Raise TypeError
      end
  end.

(** [sys.int_max_str_digits]: CPython refuses, with [ValueError], to
    write an [int] of more decimal digits, and so does [json.dumps] on
    a value that holds one. *)
Definition int_max_str_digits : Z := 4300.

Definition long_int (n : Z) : bool := 10 ^ int_max_str_digits <=? Z.abs n.

Fixpoint has_long_int (v : json) : bool :=
  match v with
  | JInt n => long_int n
  | JArr l => existsb has_long_int l
  | JObj m => map_fold (fun _ x found => has_long_int x || found) false m
  | JNull | JBool _ | JFloat _ | JStr _ => false
  end.

End Py.
Import Py.

(** ** [uuid.uuid4] and [str(UUID)] *)

Module Uuid.

(** [UUID(bytes=os.urandom(16), version=4).int], as a function of the
    integer [rand] read from the sixteen random bytes: the variant bits
    are set to RFC 4122 and the version nibble to 4. *)
Definition uuid4 (rand : Z) : Z :=
  let i := Z.land rand (Z.lnot (Z.shiftl 0xc000 48)) in
  let i := Z.lor i (Z.shiftl 0x8000 48) in
  let i := Z.land i (Z.lnot (Z.shiftl 0xf000 64)) in
  Z.lor i (Z.shiftl 4 76).

Definition hex_char (d : Z) : ascii :=
  match d with
  | 0 => "0" | 1 => "1" | 2 => "2" | 3 => "3"
  | 4 => "4" | 5 => "5" | 6 => "6" | 7 => "7"
  | 8 => "8" | 9 => "9" | 10 => "a" | 11 => "b"
  | 12 => "c" | 13 => "d" | 14 => "e" | _ => "f"
  end%char.

(** The [i]-th hexadecimal digit from the left of a 128-bit value. *)
Definition nibble (n : Z) (i : nat) : Z :=
  Z.land (Z.shiftr n (4 * (31 - Z.of_nat i))) 15.

(** ['%032x' % n] for [0 <= n < 2^128] (the range of [UUID.int]). *)
Definition format_032x (n : Z) : list ascii :=
  map (fun i => hex_char (nibble n i)) (seq 0 32).

(** [str(u)]: ['%s-%s-%s-%s-%s' % (hex[:8], hex[8:12], hex[12:16],
    hex[16:20], hex[20:])]. *)
Definition hyphenate (hex : list ascii) : list ascii :=
  take 8 hex ++ "-"%char :: take 4 (drop 8 hex) ++ "-"%char ::
  take 4 (drop 12 hex) ++ "-"%char :: take 4 (drop 16 hex) ++ "-"%char ::
  drop 20 hex.

Definition str (u : Z) : string :=
  string_of_list_ascii (hyphenate (format_032x u)).

(** The random bits [uuid4] keeps: all 128 but the six it overwrites. *)
Definition kept_bits : Z :=
  Z.land (Z.ones 128)
    (Z.lnot (Z.lor (Z.shiftl 0xc000 48) (Z.shiftl 0xf000 64))).

Definition is_hex_digit (c : ascii) : bool :=
  existsb (Ascii.eqb c) (list_ascii_of_string "0123456789abcdef").

(** The textual shape of a version-4 UUID: 36 characters, hyphens at
    offsets 8, 13, 18 and 23, lower-case hexadecimal digits elsewhere,
    version digit 4 and variant digit 8, 9, a or b. *)
Definition is_uuid4_string (s : string) : bool :=
  let cs := list_ascii_of_string s in
  let at_ i := nth i cs "?"%char in
  Nat.eqb (length cs) 36
  && forallb (fun i =>
       if existsb (Nat.eqb i) [8; 13; 18; 23]%nat
       then Ascii.eqb (at_ i) "-"
       else is_hex_digit (at_ i)) (seq 0 36)
  && Ascii.eqb (at_ 14%nat) "4"
  && existsb (Ascii.eqb (at_ 19%nat)) (list_ascii_of_string "89ab").

(** The digit a hexadecimal character stands for. *)
Definition hex_value (c : ascii) : Z :=
  Z.of_nat (default 0%nat
    (list_find (Ascii.eqb c) (list_ascii_of_string "0123456789abcdef")
     ≫= fun '(i, _) => Some i)).

End Uuid.

(** ** The server state *)

(** A Python list object is named by its location in the heap: the
    dictionary [subscriptions] and the local variable [queue] of a
    running [generate_sse] hold references, not copies. *)
Abbreviation loc := nat.

(** An entry of a client's queue: [(event_type, data)]. *)
Abbreviation event := (string * json)%type.

(** The [args] of a started [threading.Thread(target=process_add, ...)]:
    [(request_id, params, client_id)], where [client_id] is what
    [request.headers.get('X-Client-ID')] returned. *)
Record task : Type := Task {
  task_request_id : string;
  task_params : json;
  task_client_id : option string }.

(** Where a background thread stands: before its first locked section,
    between [notify_client] and the clean-up, done, or dead of an
    uncaught exception. *)
Inductive thread : Type :=
| Started (t : task)
| Notified (t : task)
| Finished
| Crashed (e : pyerr).

(** A [generate_sse(client_id)] generator object: not yet run; at the
    head of its [while True] loop with its local [queue]; past
    [if queue:] and before [queue.pop(0)]; or ended by an exception. *)
Inductive generator : Type :=
| Created (client_id : string)
| Polling (client_id : string) (queue : loc)
| Popping (client_id : string) (queue : loc)
| Ended (e : pyerr).

Record server : Type := Server {
  pending_requests : gmap string (option string);
  subscriptions : gmap string loc;
  heap : gmap loc (list event);
  threads : list thread;
  streams : list generator }.

Definition set_pending_requests
    (f : gmap string (option string) -> gmap string (option string))
    (s : server) : server :=
  Server (f (pending_requests s)) (subscriptions s) (heap s)
         (threads s) (streams s).

Definition set_subscriptions
    (f : gmap string loc -> gmap string loc) (s : server) : server :=
  Server (pending_requests s) (f (subscriptions s)) (heap s)
         (threads s) (streams s).

Definition set_heap
    (f : gmap loc (list event) -> gmap loc (list event))
    (s : server) : server :=
  Server (pending_requests s) (subscriptions s) (f (heap s))
         (threads s) (streams s).

Definition set_threads (f : list thread -> list thread) (s : server)
    : server :=
  Server (pending_requests s) (subscriptions s) (heap s)
         (f (threads s)) (streams s).

Definition set_streams (f : list generator -> list generator) (s : server)
    : server :=
  Server (pending_requests s) (subscriptions s) (heap s)
         (threads s) (f (streams s)).

(** Code that reads and writes the server state and may raise. *)
Definition M (A : Type) : Type := server -> result A * server.

Definition ret {A : Type} (a : A) : M A := fun s => (Ok a, s).

Definition bind {A B : Type} (m : M A) (k : A -> M B) : M B :=
  fun s =>
    match m s with
    | (Ok a, s') => k a s'
    | (Raise e, s') => (Raise e, s')
    end.

Definition lift {A : Type} (r : result A) : M A := fun s => (r, s).

Definition modify (f : server -> server) : M unit := fun s => (Ok tt, f s).

Notation "x <- m ;; k" := (bind m (fun x => k))
  (at level 100, m at next level, right associativity).
Notation "m ;;; k" := (bind m (fun _ => k))
  (at level 100, right associativity).

(** ** [main.py] *)

(** [subscriptions.clear()], on the empty module state: the server as
    it stands once the module is loaded. *)
Definition init_subscriptions : server :=
  set_subscriptions (fun _ => ∅) (Server ∅ ∅ ∅ [] []).

(** [client_id in subscriptions], and the list it names. *)
Definition subscribed (s : server) (client_id : option string)
    : option loc :=
  c ← client_id; subscriptions s !! c.

(** [notify_client(client_id, event_type, data)]. *)
Definition notify_client (client_id : option string) (event_type : string)
    (data : json) : M unit :=
  fun s =>
    match subscribed s client_id with
    | Some queue =>
        let append l := l ++ [(event_type, data)] in
        (Ok tt, set_heap (alter append queue) s)
    | None => (Ok tt, s)
    end.

(** The event [process_add] builds. *)
Definition result_event (request_id : string) (result : json) : json :=
  JObj {[ "jsonrpc" := JStr "2.0";
          "id" := JStr request_id;
          "result" := result ]}.

(** [params['a'] + params['b']]. *)
Definition sum_of_params (params : json) : result json :=
  rbind (getitem params "a") (fun a =>
  rbind (getitem params "b") (fun b => Py.add a b)).

(** [process_add] up to the end of [notify_client]. *)
Definition process_add_notify (request_id : string) (params : json)
    (client_id : option string) : M unit :=
  result <- lift (sum_of_params params) ;;
  notify_client client_id "result" (result_event request_id result).

(** The second locked section of [process_add]. *)
Definition process_add_cleanup (request_id : string) : M unit :=
  modify (fun s =>
    match pending_requests s !! request_id with
    | Some _ => set_pending_requests (delete request_id) s
    | None => s
    end).

(** [process_add(request_id, params, client_id)]. *)
Definition process_add (request_id : string) (params : json)
    (client_id : option string) : M unit :=
  process_add_notify request_id params client_id ;;;
  process_add_cleanup request_id.

Record response : Type := Response {
  body : json;
  status : Z }.

Definition error_body (code : Z) (message : string) (id : json) : json :=
  JObj {[ "jsonrpc" := JStr "2.0";
          "error" := JObj {[ "code" := JInt code;
                             "message" := JStr message ]};
          "id" := id ]}.

Definition parameter (name type : string) : json :=
  JObj {[ "name" := JStr name; "type" := JStr type ]}.

Definition method_list : json :=
  JObj {[ "methods" := JArr [
    JObj {[ "name" := JStr "mcp_discover";
            "description" := JStr "List available methods";
            "parameters" := JArr [] ]};
    JObj {[ "name" := JStr "add";
            "description" := JStr "Add two numbers";
            "parameters" := JArr [parameter "a" "number";
                                  parameter "b" "number"] ]} ] ]}.

Definition success_body (id result : json) : json :=
  JObj {[ "jsonrpc" := JStr "2.0"; "id" := id; "result" := result ]}.

Definition pending_ack (request_id : string) : json :=
  JObj {[ "status" := JStr "pending"; "requestId" := JStr request_id ]}.

(** [not data or 'jsonrpc' not in data or data['jsonrpc'] != '2.0']. *)
Definition invalid_envelope (data : json) : result bool :=
  if negb (truthy data) then Ok true
  else
    rbind (contains "jsonrpc" data) (fun has =>
    if negb has then Ok true
    else rbind (getitem data "jsonrpc") (fun v => Ok (negb (eq_str v "2.0")))).

(** ['a' not in params or 'b' not in params]. *)
Definition missing_operand (params : json) : result bool :=
  rbind (contains "a" params) (fun has_a =>
  if negb has_a then Ok true
  else rbind (contains "b" params) (fun has_b => Ok (negb has_b))).

(** [not client_id] on the value of [request.headers.get]. *)
Definition no_client_id (client_id : option string) : bool :=
  match client_id with
  | None => true
  | Some c => String.eqb c ""
  end.

(** [jsonrpc_endpoint()] from its second line on, as a function of the
    body [data] that [request.json] returned, the header [X-Client-ID]
    and the random integer [uuid.uuid4()] draws. *)
Definition jsonrpc_endpoint (data : json) (x_client_id : option string)
    (rand : Z) : M response :=
  invalid <- lift (invalid_envelope data) ;;
  if (invalid : bool) then
    ret (Response (error_body (-32600) "Invalid Request" JNull) 400)
  else
    method <- lift (get data "method" JNull) ;;
    req_id <- lift (get data "id" JNull) ;;
    let client_id := x_client_id in
    if negb (eq_str method "mcp_discover") && no_client_id client_id then
      ret (Response
             (error_body (-32600) "Missing X-Client-ID header" req_id) 400)
    else if eq_str method "mcp_discover" then
      ret (Response (success_body req_id method_list) 200)
    else if eq_str method "add" then
      params <- lift (get data "params" (JObj ∅)) ;;
      missing <- lift (missing_operand params) ;;
      if (missing : bool) then
        ret (Response (error_body (-32602) "Invalid parameters" req_id) 400)
      else
        let request_id := Uuid.str (Uuid.uuid4 rand) in
        modify (set_pending_requests (<[request_id := client_id]>)) ;;;
        let thread := Started (Task request_id params client_id) in
        modify (set_threads (fun ts => ts ++ [thread])) ;;;
        ret (Response (success_body req_id (pending_ack request_id)) 200)
    else
      ret (Response (error_body (-32601) "Method not found" req_id) 404).

(** The view function from its first line, [data = request.json]: the
    framework returns the parsed body or raises ([BadRequest] on a body
    that is not JSON), and its exception leaves the function. *)
Definition jsonrpc_route (request_json : result json)
    (x_client_id : option string) (rand : Z) : M response :=
  data <- lift request_json ;;
  jsonrpc_endpoint data x_client_id rand.

(** The first locked section of [generate_sse]:
    [queue = subscriptions.get(client_id, [])].  The default is a new,
    empty list that nothing but this generator refers to. *)
Definition generate_sse_enter (client_id : string) : M loc :=
  fun s =>
    match subscriptions s !! client_id with
    | Some queue => (Ok queue, s)
    | None =>
        let queue := fresh (dom (heap s)) in
        (Ok queue, set_heap (<[queue := []]>) s)
    end.

Definition newline : string := String (ascii_of_nat 10) "".

Section Stream.

(** [json.dumps]: the text of a value, or the exception it raises
    (a [ValueError] on an [int] of more than 4300 digits, for one). *)
Variable json_dumps : json -> result string.

(** [f"event: {event_type}\ndata: {text}\n\n"], where [text] is what
    [json.dumps(data)] returned. *)
Definition sse_frame (event_type text : string) : string :=
  "event: " +:+ event_type +:+ newline +:+
  "data: " +:+ text +:+ newline +:+ newline.

(** [if queue:], which is read outside the lock. *)
Definition generate_sse_test (queue : loc) : M bool :=
  fun s =>
    match heap s !! queue with
    | Some (_ :: _) => (Ok true, s)
    | _ => (Ok false, s)
    end.

(** [event_type, data = queue.pop(0)] and the [yield] of the frame:
    the event is taken off the list before [json.dumps] is called, and
    [pop] raises [IndexError] on a list found empty. *)
Definition generate_sse_pop (queue : loc) : M (event * string) :=
  fun s =>
    match heap s !! queue with
    | Some (ev :: rest) =>
        let s' := set_heap (<[queue := rest]>) s in
        match json_dumps (snd ev) with
        | Ok text => (Ok (ev, sse_frame (fst ev) text), s')
        | Raise e => (Raise e, s')
        end
    | _ => (Raise IndexError, s)
    end.

(** One turn of the [while True] loop of [generate_sse] when nothing
    runs in between: the frame that is yielded, or nothing after
    [time.sleep(0.1)]. *)
Definition generate_sse_iter (queue : loc) : M (option (event * string)) :=
  found <- generate_sse_test queue ;;
  if (found : bool) then
    yielded <- generate_sse_pop queue ;;
    ret (Some yielded)
  else ret None.

End Stream.

(** ** The running server

    The server advances by the atomic sections of its request handlers,
    background threads and generators, in any interleaving. *)

Inductive label : Type :=
| Post (data : json) (x_client_id : option string) (rand : Z)
| Open (client_id : string)
| Iterate (i : nat)
| Run (i : nat).

(** What a step lets the outside see, what it adds to a queue
    ([Appended]) and what it takes off one: [Yielded] with the frame
    sent, [Dropped] when [json.dumps] raised on the event popped. *)
Inductive obs : Type :=
| Responded (r : result response)
| Appended (queue : loc) (ev : event)
| Yielded (i : nat) (queue : loc) (ev : event) (frame : string)
| Dropped (i : nat) (queue : loc) (ev : event) (e : pyerr).

(** The event a thread is about to hand to [notify_client], and the
    list it will be appended to, if any. *)
Definition pending_event (s : server) (t : task) : option (loc * event) :=
  match sum_of_params (task_params t), subscribed s (task_client_id t) with
  | Ok r, Some queue =>
      Some (queue, ("result", result_event (task_request_id t) r))
  | _, _ => None
  end.

(** The event [queue.pop(0)] is about to take off the list. *)
Definition oldest (s : server) (queue : loc) : option event :=
  l ← heap s !! queue; head l.

Section System.

Variable json_dumps : json -> result string.

Definition step (s : server) (l : label) : server * list obs :=
  match l with
  | Post data x_client_id rand =>
      let '(r, s') := jsonrpc_endpoint data x_client_id rand s in
      (s', [Responded r])
  | Open client_id =>
      (set_streams (fun gs => gs ++ [Created client_id]) s, [])
  | Iterate i =>
      match streams s !! i with
      | Some (Created client_id) =>
          match generate_sse_enter client_id s with
          | (Ok queue, s') =>
              (set_streams (<[i := Polling client_id queue]>) s', [])
          | (Raise _, s') => (s', [])
          end
      | Some (Polling client_id queue) =>
          match generate_sse_test queue s with
          | (Ok true, s') =>
              (set_streams (<[i := Popping client_id queue]>) s', [])
          | (_, s') => (s', [])
          end
      | Some (Popping client_id queue) =>
          match generate_sse_pop json_dumps queue s with
          | (Ok (ev, frame), s') =>
              (set_streams (<[i := Polling client_id queue]>) s',
               [Yielded i queue ev frame])
          | (Raise e, s') =>
              (set_streams (<[i := Ended e]>) s',
               match oldest s queue with
               | Some ev => [Dropped i queue ev e]
               | None => []
               end)
          end
      | Some (Ended _) | None => (s, [])
      end
  | Run i =>
      match threads s !! i with
      | Some (Started t) =>
          match process_add_notify (task_request_id t) (task_params t)
                  (task_client_id t) s with
          | (Ok _, s') =>
              (set_threads (<[i := Notified t]>) s',
               match pending_event s t with
               | Some (queue, ev) => [Appended queue ev]
               | None => []
               end)
          | (Raise e, s') => (set_threads (<[i := Crashed e]>) s', [])
          end
      | Some (Notified t) =>
          let '(_, s') := process_add_cleanup (task_request_id t) s in
          (set_threads (<[i := Finished]>) s', [])
      | _ => (s, [])
      end
  end.

Fixpoint run (s : server) (ls : list label) : server * list obs :=
  match ls with
  | [] => (s, [])
  | l :: ls' =>
      let '(s1, o1) := step s l in
      let '(s2, o2) := run s1 ls' in
      (s2, o1 ++ o2)
  end.

End System.

(** The events appended to, popped from (yielded or not), and yielded
    from one list object, and the frames yielded. *)
Definition appended_to (queue : loc) (os : list obs) : list event :=
  omap (fun o =>
    match o with
    | Appended q ev => if decide (q = queue) then Some ev else None
    | _ => None
    end) os.

Definition popped_from (queue : loc) (os : list obs) : list event :=
  omap (fun o =>
    match o with
    | Yielded _ q ev _ | Dropped _ q ev _ =>
        if decide (q = queue) then Some ev else None
    | _ => None
    end) os.

Definition yielded_from (queue : loc) (os : list obs) : list event :=
  omap (fun o =>
    match o with
    | Yielded _ q ev _ => if decide (q = queue) then Some ev else None
    | _ => None
    end) os.

Definition frames_from (queue : loc) (os : list obs) : list string :=
  omap (fun o =>
    match o with
    | Yielded _ q _ frame => if decide (q = queue) then Some frame else None
    | _ => None
    end) os.

(** The content of a list object, and the queue of a client. *)
Definition content (s : server) (queue : loc) : list event :=
  default [] (heap s !! queue).

Definition client_queue (s : server) (client_id : string)
    : option (list event) :=
  queue ← subscriptions s !! client_id; heap s !! queue.

(** References are never dangling, and distinct clients are registered
    with distinct list objects. *)
Record well_formed (s : server) : Prop := {
  wf_allocated : forall c q,
    subscriptions s !! c = Some q -> is_Some (heap s !! q);
  wf_distinct : forall c1 c2 q,
    subscriptions s !! c1 = Some q -> subscriptions s !! c2 = Some q ->
    c1 = c2 }.

(** ** Vocabulary of the statements *)

(** [m.get(k)] on the members of a JSON object. *)
Definition field (m : gmap string json) (k : string) : json :=
  default JNull (m !! k).

(** The state an accepted [add] leaves behind: one more entry in
    [pending_requests] and one more started thread. *)
Definition accepted (request_id : string) (params : json)
    (client_id : option string) (s : server) : server :=
  let thread := Started (Task request_id params client_id) in
  set_threads (fun ts => ts ++ [thread])
    (set_pending_requests (<[request_id := client_id]>) s).

(** A request that did not succeed: a response with a status other
    than 200, or an uncaught exception. *)
Definition failed (r : result response) : Prop :=
  match r with
  | Ok rsp => status rsp <> 200
  | Raise _ => True
  end.

(** The synchronous errors of the interface. *)
Inductive sync_error : Type :=
| InvalidEnvelope
| MissingClientId
| InvalidParameters
| MethodNotFound.

Definition error_code (e : sync_error) : Z :=
  match e with
  | InvalidEnvelope | MissingClientId => -32600
  | InvalidParameters => -32602
  | MethodNotFound => -32601
  end.

Definition error_message (e : sync_error) : string :=
  match e with
  | InvalidEnvelope => "Invalid Request"
  | MissingClientId => "Missing X-Client-ID header"
  | InvalidParameters => "Invalid parameters"
  | MethodNotFound => "Method not found"
  end.

Definition error_status (e : sync_error) : Z :=
  match e with
  | MethodNotFound => 404
  | _ => 400
  end.

(** The requests each error is documented for, and the [id] the error
    response carries. *)
Inductive erroneous (hdr : option string)
    : json -> sync_error -> json -> Prop :=
| Err_falsy data :
    truthy data = false ->
    erroneous hdr data InvalidEnvelope JNull
| Err_envelope m :
    m !! "jsonrpc" <> Some (JStr "2.0") ->
    erroneous hdr (JObj m) InvalidEnvelope JNull
| Err_client m :
    m !! "jsonrpc" = Some (JStr "2.0") ->
    m !! "method" <> Some (JStr "mcp_discover") ->
    no_client_id hdr = true ->
    erroneous hdr (JObj m) MissingClientId (field m "id")
| Err_params m p :
    m !! "jsonrpc" = Some (JStr "2.0") ->
    m !! "method" = Some (JStr "add") ->
    no_client_id hdr = false ->
    default (JObj ∅) (m !! "params") = JObj p ->
    p !! "a" = None \/ p !! "b" = None ->
    erroneous hdr (JObj m) InvalidParameters (field m "id")
| Err_method m :
    m !! "jsonrpc" = Some (JStr "2.0") ->
    m !! "method" <> Some (JStr "mcp_discover") ->
    m !! "method" <> Some (JStr "add") ->
    no_client_id hdr = false ->
    erroneous hdr (JObj m) MethodNotFound (field m "id").

(** A well-formed [add] submission: envelope, method, a non-empty
    [X-Client-ID] and a [params] object with members [a] and [b]. *)
Record add_submission (m p : gmap string json) (hdr : option string)
    (a b : json) : Prop := {
  sub_envelope : m !! "jsonrpc" = Some (JStr "2.0");
  sub_method : m !! "method" = Some (JStr "add");
  sub_client : no_client_id hdr = false;
  sub_params : m !! "params" = Some (JObj p);
  sub_a : p !! "a" = Some a;
  sub_b : p !! "b" = Some b }.

(** A member of a JSON object, and the body of a handler's outcome. *)
Definition member (v : json) (k : string) : option json :=
  match v with
  | JObj m => m !! k
  | _ => None
  end.

Definition body_of (r : result response) : json :=
  match r with
  | Ok rsp => body rsp
  | Raise _ => JNull
  end.

(** The scenario of the interface description: client [abc] posts
    [{jsonrpc: "2.0", method: "add", id: 1, params: {a: 2, b: 3}}]. *)
Definition scenario_params : gmap string json :=
  {[ "a" := JInt 2; "b" := JInt 3 ]}.

Definition scenario_request : gmap string json :=
  {[ "jsonrpc" := JStr "2.0"; "method" := JStr "add"; "id" := JInt 1;
     "params" := JObj scenario_params ]}.

(** A server on which [client_id] owns an empty queue. *)
Definition registered (client_id : string) : server :=
  Server ∅ {[ client_id := 0%nat ]} {[ 0%nat := [] ]} [] [].

(** A server with two registered clients: [abc] with an empty queue and
    [xyz] with one pending event. *)
Definition two_clients : server :=
  Server {[ "job-1" := Some "abc" ]}
         {[ "abc" := 0%nat; "xyz" := 1%nat ]}
         {[ 0%nat := []; 1%nat := [("result", JInt 7)] ]} [] [].

(** Two registered clients, each with one pending event and one open
    stream. *)
Definition two_streams : server :=
  Server ∅
         {[ "abc" := 0%nat; "xyz" := 1%nat ]}
         {[ 0%nat := [("result", JInt 1)]; 1%nat := [("result", JInt 2)] ]}
         [] [Polling "abc" 0%nat; Polling "xyz" 1%nat].

(** The list objects the yielded frames were popped from, in order. *)
Definition yield_order (os : list obs) : list loc :=
  omap (fun o =>
    match o with
    | Yielded _ q _ _ => Some q
    | _ => None
    end) os.

(** The frame of an event, when [json.dumps] returns on its data. *)
Definition frame_of (json_dumps : json -> result string) (ev : event)
    : option string :=
  match json_dumps (snd ev) with
  | Ok text => Some (sse_frame (fst ev) text)
  | Raise _ => None
  end.

(** What a step, or a run, does to one list object [q]: the server stays
    well formed, [subscriptions] is not written to, the events popped
    from [q] followed by its new content are its old content followed by
    the events appended to it, and the events yielded are those of the
    events popped on which [json.dumps] returns, each in its frame. *)
Definition step_keeps (json_dumps : json -> result string) (q : loc)
    (s s' : server) (os : list obs) : Prop :=
  well_formed s'
  /\ subscriptions s' = subscriptions s
  /\ popped_from q os ++ content s' q = content s q ++ appended_to q os
  /\ yielded_from q os =
       filter (fun ev => is_Some (frame_of json_dumps ev)) (popped_from q os)
  /\ frames_from q os = omap (frame_of json_dumps) (popped_from q os).

Ltac split_keeps :=
  unfold step_keeps; split; [|split; [|split; [|split]]].

(** ** Vocabulary of the further properties *)

(** The JSON values that are no containers: [k in v] raises on them. *)
Definition scalar (v : json) : bool :=
  match v with
  | JNull | JBool _ | JInt _ | JFloat _ => true
  | JStr _ | JArr _ | JObj _ => false
  end.

(** The requests on which the handler raises: a truthy body that is a
    number or [true]; a string with ["jsonrpc"] in it or a list with the
    element ["jsonrpc"] (the body is then indexed by a string); and an
    [add] with a client identifier whose [params] is no container. *)
Inductive crashes (hdr : option string) : json -> Prop :=
| Crash_scalar data :
    truthy data = true -> scalar data = true -> crashes hdr data
| Crash_str s :
    is_substring "jsonrpc" s = true -> crashes hdr (JStr s)
| Crash_arr l :
    existsb (fun x => eq_str x "jsonrpc") l = true -> crashes hdr (JArr l)
| Crash_params m :
    m !! "jsonrpc" = Some (JStr "2.0") ->
    m !! "method" = Some (JStr "add") ->
    no_client_id hdr = false ->
    scalar (default (JObj ∅) (m !! "params")) = true ->
    crashes hdr (JObj m).

(** How far a thread, and a generator, can have moved on. *)
Inductive advances : thread -> thread -> Prop :=
| Adv_same th : advances th th
| Adv_notified t : advances (Started t) (Notified t)
| Adv_crashed t e : advances (Started t) (Crashed e)
| Adv_finished t : advances (Notified t) Finished
| Adv_through t : advances (Started t) Finished.

Inductive follows : generator -> generator -> Prop :=
| Fol_same g : follows g g
| Fol_entered client_id queue :
    follows (Created client_id) (Polling client_id queue)
| Fol_entered_found client_id queue :
    follows (Created client_id) (Popping client_id queue)
| Fol_found client_id queue :
    follows (Polling client_id queue) (Popping client_id queue)
| Fol_yielded client_id queue :
    follows (Popping client_id queue) (Polling client_id queue)
| Fol_created_ended client_id e : follows (Created client_id) (Ended e)
| Fol_polling_ended client_id queue e :
    follows (Polling client_id queue) (Ended e)
| Fol_popping_ended client_id queue e :
    follows (Popping client_id queue) (Ended e).

(** The [id] a response carries: the request's, once the envelope check
    has passed, and [null] before. *)
Definition echoed_id (data : json) : json :=
  match data with
  | JObj m => if eq_str (field m "jsonrpc") "2.0" then field m "id" else JNull
  | _ => JNull
  end.

(** The containers that are not objects: [k in v] is defined on them
    and [v[k]] is not. *)
Definition sequence (v : json) : bool :=
  match v with
  | JStr _ | JArr _ => true
  | _ => false
  end.

(** Two states that differ in [pending_requests] and in the content of
    the queues at most. *)
Definition same_control (s s' : server) : Prop :=
  subscriptions s' = subscriptions s
  /\ threads s' = threads s
  /\ streams s' = streams s.

(** What any step keeps: [subscriptions], the threads it does not run
    (the one it runs advances) and the streams it does not enter. *)
Definition step_frame (s s' : server) : Prop :=
  subscriptions s' = subscriptions s
  /\ (forall i th, threads s !! i = Some th ->
        exists th', threads s' !! i = Some th' /\ advances th th')
  /\ (forall i g, streams s !! i = Some g ->
        exists g', streams s' !! i = Some g' /\ follows g g').

(** A stand-in for [json.dumps] where a run is evaluated. *)
Definition constant_dumps (v : json) : result string := Ok "{}".

(** [json.dumps] as far as the limit on integers goes: [ValueError] on
    a value that holds an [int] of more than 4300 digits; the text of
    any other value is left to [render]. *)
Definition dumps_within_limit (render : json -> string) (v : json)
    : result string :=
  if has_long_int v then Raise ValueError else Ok (render v).


(** A server on which the queue of [abc] holds the sum
    [5 * 10^4299 + 5 * 10^4299] of an accepted job, with one stream
    polling it. *)
Definition long_result : event :=
  ("result",
   result_event "00000000-0000-4000-8000-000000000000" (JInt (10 ^ 4300))).

Definition one_long_result : server :=
  Server ∅ {[ "abc" := 0%nat ]}
         {[ 0%nat := [long_result; ("result", JInt 7)] ]}
         [] [Polling "abc" 0%nat].

(** * Properties

    ** Identifiers drawn by [uuid.uuid4] *)

Module UuidFacts.
Import Uuid.

Lemma length_format_032x n : length (format_032x n) = 32%nat.
Proof. unfold format_032x. by rewrite length_map, length_seq. Qed.

(** Bit [j] of [uuid4 rand]. *)
Lemma testbit_uuid4 rand j :
  0 <= j ->
  Z.testbit (uuid4 rand) j =
    (((Z.testbit rand j && negb (Z.testbit (Z.shiftl 0xc000 48) j)
       || Z.testbit (Z.shiftl 0x8000 48) j)
      && negb (Z.testbit (Z.shiftl 0xf000 64) j))
     || Z.testbit (Z.shiftl 4 76) j)%bool.
Proof.
  intros Hj. unfold uuid4.
  by rewrite Z.lor_spec, Z.land_spec, Z.lor_spec, Z.land_spec, !Z.lnot_spec.
Qed.

Lemma testbit_nibble n i k :
  (i < 32)%nat -> 0 <= k ->
  Z.testbit (nibble n i) k =
    (Z.testbit n (k + 4 * (31 - Z.of_nat i)) && (k <? 4))%bool.
Proof.
  intros Hi Hk. unfold nibble.
  rewrite Z.land_spec, Z.shiftr_spec by done.
  f_equal. change 15 with (Z.ones 4). rewrite Z.testbit_ones by lia.
  destruct (Z.leb_spec 0 k), (Z.ltb_spec k 4); simpl; lia.
Qed.

Lemma nibble_range n i : 0 <= nibble n i < 16.
Proof.
  unfold nibble. change 15 with (Z.ones 4). rewrite Z.land_ones by lia.
  apply Z.mod_pos_bound. lia.
Qed.

Lemma small_cases k : 0 <= k -> (k <? 4) = true ->
  k = 0 \/ k = 1 \/ k = 2 \/ k = 3.
Proof. intros ? ?%Z.ltb_lt. lia. Qed.

Lemma nibble_version rand : nibble (uuid4 rand) 12 = 4.
Proof.
  apply Z.bits_inj'. intros k Hk.
  rewrite testbit_nibble, testbit_uuid4 by lia.
  destruct (k <? 4) eqn:Hlt.
  - destruct (small_cases k Hk Hlt) as [-> | [-> | [-> | ->]]];
      destruct (Z.testbit rand _); reflexivity.
  - rewrite andb_false_r. symmetry. apply Z.ltb_ge in Hlt.
    apply (Z.bits_above_log2 4 k); simpl; lia.
Qed.

Lemma nibble_variant rand :
  let v := nibble (uuid4 rand) 16 in v = 8 \/ v = 9 \/ v = 10 \/ v = 11.
Proof.
  intros v.
  assert (H3 : Z.testbit v 3 = true).
  { unfold v. rewrite testbit_nibble, testbit_uuid4 by lia.
    destruct (Z.testbit rand _); reflexivity. }
  assert (H2 : Z.testbit v 2 = false).
  { unfold v. rewrite testbit_nibble, testbit_uuid4 by lia.
    destruct (Z.testbit rand _); reflexivity. }
  pose proof (nibble_range (uuid4 rand) 16) as Hr. fold v in Hr.
  clearbody v.
  assert (Hv : v = 0 \/ v = 1 \/ v = 2 \/ v = 3 \/ v = 4 \/ v = 5 \/ v = 6
               \/ v = 7 \/ v = 8 \/ v = 9 \/ v = 10 \/ v = 11 \/ v = 12
               \/ v = 13 \/ v = 14 \/ v = 15) by lia.
  repeat (destruct Hv as [-> | Hv]; [try discriminate; lia|]).
  subst. discriminate.
Qed.

Lemma is_hex_digit_hex_char d : is_hex_digit (hex_char d) = true.
Proof.
  destruct d as [|p|p]; try reflexivity.
  do 5 (try (destruct p as [p|p|]; try reflexivity)).
Qed.

Lemma is_uuid4_string_str rand : is_uuid4_string (str (uuid4 rand)) = true.
Proof.
  unfold is_uuid4_string, str.
  rewrite list_ascii_of_string_of_list_ascii.
  pose proof (nibble_version rand) as Hver.
  pose proof (nibble_variant rand) as Hvar.
  unfold format_032x. cbn [map seq hyphenate take drop firstn skipn app].
  cbn [length Nat.eqb forallb existsb nth andb orb].
  rewrite !is_hex_digit_hex_char. rewrite Hver.
  cbn in Hvar. destruct Hvar as [-> | [-> | [-> | ->]]]; reflexivity.
Qed.

Lemma hex_value_hex_char d : 0 <= d < 16 -> hex_value (hex_char d) = d.
Proof.
  intros Hd.
  assert (Hc : d = 0 \/ d = 1 \/ d = 2 \/ d = 3 \/ d = 4 \/ d = 5 \/ d = 6
               \/ d = 7 \/ d = 8 \/ d = 9 \/ d = 10 \/ d = 11 \/ d = 12
               \/ d = 13 \/ d = 14 \/ d = 15) by lia.
  repeat (destruct Hc as [-> | Hc]; [reflexivity|]). by subst.
Qed.

Lemma hex_char_inj x y :
  0 <= x < 16 -> 0 <= y < 16 -> hex_char x = hex_char y -> x = y.
Proof.
  intros Hx Hy Heq.
  rewrite <- (hex_value_hex_char x Hx), <- (hex_value_hex_char y Hy).
  by rewrite Heq.
Qed.

Lemma map_seq_inj {A : Type} (f g : nat -> A) (l : list nat) :
  map f l = map g l -> forall i, In i l -> f i = g i.
Proof.
  induction l as [|x l IH]; simpl; [tauto|].
  intros [= Hx Hl] i [<- | Hi]; auto.
Qed.

Lemma format_032x_inj a b :
  format_032x a = format_032x b ->
  forall j, 0 <= j < 128 -> Z.testbit a j = Z.testbit b j.
Proof.
  intros Heq j Hj. unfold format_032x in Heq.
  pose proof (map_seq_inj _ _ _ Heq) as Hnib. cbv beta in Hnib.
  pose proof (Z.div_mod j 4 ltac:(lia)) as Hdm.
  pose proof (Z.mod_pos_bound j 4 ltac:(lia)) as Hmod.
  set (i := Z.to_nat (31 - j / 4)).
  assert (Hi : (i < 32)%nat) by (unfold i; lia).
  assert (Hn : nibble a i = nibble b i).
  { apply hex_char_inj; try apply nibble_range.
    apply Hnib, in_seq. lia. }
  apply (f_equal (fun v => Z.testbit v (j mod 4))) in Hn.
  rewrite !testbit_nibble in Hn by lia.
  replace (j mod 4 + 4 * (31 - Z.of_nat i)) with j in Hn by (unfold i; lia).
  replace (j mod 4 <? 4) with true in Hn by (symmetry; apply Z.ltb_lt; lia).
  by rewrite !andb_true_r in Hn.
Qed.

Lemma format_032x_ext a b :
  (forall j, 0 <= j < 128 -> Z.testbit a j = Z.testbit b j) ->
  format_032x a = format_032x b.
Proof.
  intros Hbits. unfold format_032x. apply map_ext_in.
  intros i Hi%in_seq. f_equal. apply Z.bits_inj'. intros k Hk.
  rewrite !testbit_nibble by lia.
  destruct (k <? 4) eqn:Hlt; [|by rewrite !andb_false_r].
  apply Z.ltb_lt in Hlt. rewrite Hbits by lia. done.
Qed.

Lemma hyphenate_inj h1 h2 :
  length h1 = 32%nat -> length h2 = 32%nat ->
  hyphenate h1 = hyphenate h2 -> h1 = h2.
Proof.
  intros H1 H2.
  do 32 (destruct h1 as [|? h1]; [discriminate H1|]).
  destruct h1; [clear H1|discriminate H1].
  do 32 (destruct h2 as [|? h2]; [discriminate H2|]).
  destruct h2; [clear H2|discriminate H2].
  cbn [hyphenate take drop firstn skipn app].
  intros Heq. injection Heq. intros. by subst.
Qed.

Lemma str_inj a b :
  str a = str b -> forall j, 0 <= j < 128 -> Z.testbit a j = Z.testbit b j.
Proof.
  unfold str. intros Heq.
  apply (f_equal list_ascii_of_string) in Heq.
  rewrite !list_ascii_of_string_of_list_ascii in Heq.
  apply hyphenate_inj in Heq; try apply length_format_032x.
  by apply format_032x_inj.
Qed.

(** Outside the six bits it overwrites, [uuid4] keeps its argument. *)
Lemma testbit_uuid4_kept rand j :
  0 <= j -> Z.testbit kept_bits j = true ->
  Z.testbit (uuid4 rand) j = Z.testbit rand j.
Proof.
  intros Hj Hkept. unfold kept_bits in Hkept.
  rewrite Z.land_spec, Z.lnot_spec, Z.lor_spec in Hkept by done.
  apply andb_true_iff in Hkept as [_ Hkept].
  apply negb_true_iff, orb_false_iff in Hkept as [Hc Hf].
  assert (H8 : Z.testbit (Z.shiftl 0x8000 48) j = false).
  { assert (Hsub : Z.land (Z.shiftl 0x8000 48) (Z.lnot (Z.shiftl 0xc000 48))
                   = 0) by reflexivity.
    apply (f_equal (fun v => Z.testbit v j)) in Hsub.
    rewrite Z.land_spec, Z.lnot_spec, Z.bits_0, Hc in Hsub by done.
    by rewrite andb_true_r in Hsub. }
  assert (H4 : Z.testbit (Z.shiftl 4 76) j = false).
  { assert (Hsub : Z.land (Z.shiftl 4 76) (Z.lnot (Z.shiftl 0xf000 64)) = 0)
      by reflexivity.
    apply (f_equal (fun v => Z.testbit v j)) in Hsub.
    rewrite Z.land_spec, Z.lnot_spec, Z.bits_0, Hf in Hsub by done.
    by rewrite andb_true_r in Hsub. }
  rewrite testbit_uuid4, Hc, Hf, H8, H4 by done.
  by destruct (Z.testbit rand j).
Qed.

Lemma str_uuid4_inj r1 r2 :
  str (uuid4 r1) = str (uuid4 r2) ->
  Z.land r1 kept_bits = Z.land r2 kept_bits.
Proof.
  intros Heq. apply Z.bits_inj'. intros j Hj.
  rewrite !Z.land_spec.
  destruct (Z.testbit kept_bits j) eqn:Hkept; [|by rewrite !andb_false_r].
  rewrite !andb_true_r.
  rewrite <- (testbit_uuid4_kept r1 j), <- (testbit_uuid4_kept r2 j) by done.
  apply str_inj; [done|]. split; [done|].
  unfold kept_bits in Hkept. rewrite Z.land_spec in Hkept.
  apply andb_true_iff in Hkept as [Hones _].
  rewrite Z.testbit_ones in Hones by lia.
  apply andb_true_iff in Hones as [_ ?%Z.ltb_lt]. done.
Qed.

(** The identifier depends on the kept bits of the draw only. *)
Lemma str_uuid4_kept r1 r2 :
  Z.land r1 kept_bits = Z.land r2 kept_bits ->
  str (uuid4 r1) = str (uuid4 r2).
Proof.
  intros Heq. unfold str. do 2 f_equal. apply format_032x_ext.
  intros j Hj. rewrite !testbit_uuid4 by lia.
  apply (f_equal (fun v => Z.testbit v j)) in Heq.
  rewrite !Z.land_spec in Heq. unfold kept_bits in Heq.
  rewrite Z.land_spec, Z.lnot_spec, Z.lor_spec in Heq by lia.
  rewrite Z.testbit_ones in Heq by lia.
  replace (0 <=? j) with true in Heq by (symmetry; apply Z.leb_le; lia).
  replace (j <? 128) with true in Heq by (symmetry; apply Z.ltb_lt; lia).
  destruct (Z.testbit (Z.shiftl 0xc000 48) j),
    (Z.testbit (Z.shiftl 0xf000 64) j); simpl in *;
    rewrite ?andb_false_r, ?andb_true_r in *; simpl; congruence.
Qed.

Lemma str_uuid4_eq r1 r2 :
  str (uuid4 r1) = str (uuid4 r2) <->
  Z.land r1 kept_bits = Z.land r2 kept_bits.
Proof. split; [apply str_uuid4_inj | apply str_uuid4_kept]. Qed.

End UuidFacts.

(** ** The request handler *)

Lemma eq_str_true v c : eq_str v c = true <-> v = JStr c.
Proof.
  destruct v; simpl; try (split; discriminate).
  rewrite String.eqb_eq. split; congruence.
Qed.

Lemma eq_str_field m k c :
  eq_str (field m k) c = true <-> m !! k = Some (JStr c).
Proof.
  rewrite eq_str_true. unfold field.
  destruct (m !! k); simpl; split; congruence.
Qed.

Lemma eq_str_field_true m k c :
  m !! k = Some (JStr c) -> eq_str (field m k) c = true.
Proof. apply eq_str_field. Qed.

Lemma eq_str_field_false m k c :
  m !! k <> Some (JStr c) -> eq_str (field m k) c = false.
Proof. intros H. apply not_true_iff_false. by rewrite eq_str_field. Qed.

Lemma eq_str_false_field m k c :
  eq_str (field m k) c = false -> m !! k <> Some (JStr c).
Proof. intros H Hk. by rewrite (eq_str_field_true _ _ _ Hk) in H. Qed.

Lemma truthy_obj_lookup (m : gmap string json) k v :
  m !! k = Some v -> truthy (JObj m) = true.
Proof.
  intros Hk. simpl. apply negb_true_iff, Nat.eqb_neq.
  intros Hsize%map_size_empty_inv. subst. by rewrite lookup_empty in Hk.
Qed.

Lemma invalid_envelope_obj m :
  invalid_envelope (JObj m) =
    Ok (negb (eq_str (field m "jsonrpc") "2.0")).
Proof.
  unfold invalid_envelope, field.
  destruct (m !! "jsonrpc") as [v|] eqn:Hv.
  - rewrite (truthy_obj_lookup m _ v Hv). simpl. rewrite Hv.
    by rewrite bool_decide_true by eauto.
  - destruct (truthy (JObj m)); simpl; [|done].
    rewrite Hv. by rewrite bool_decide_false by (intros [? [=]]).
Qed.

Lemma invalid_envelope_false data :
  invalid_envelope data = Ok false ->
  exists m, data = JObj m /\ m !! "jsonrpc" = Some (JStr "2.0").
Proof.
  intros H. destruct data as [| b | n | f | s | l | m].
  7: { rewrite invalid_envelope_obj in H.
       injection H as Heq%negb_false_iff.
       exists m. split; [done|]. by apply eq_str_field. }
  all: unfold invalid_envelope in H; simpl in H.
  all: repeat case_match; discriminate.
Qed.

Lemma jsonrpc_endpoint_invalid data hdr rand s :
  invalid_envelope data = Ok true ->
  jsonrpc_endpoint data hdr rand s =
    (Ok (Response (error_body (-32600) "Invalid Request" JNull) 400), s).
Proof. intros H. unfold jsonrpc_endpoint, bind, lift. by rewrite H. Qed.

Lemma jsonrpc_endpoint_raise data hdr rand s e :
  invalid_envelope data = Raise e ->
  jsonrpc_endpoint data hdr rand s = (Raise e, s).
Proof. intros H. unfold jsonrpc_endpoint, bind, lift. by rewrite H. Qed.

(** The handler on a body that passes the envelope check. *)
Lemma jsonrpc_endpoint_valid m hdr rand s :
  m !! "jsonrpc" = Some (JStr "2.0") ->
  jsonrpc_endpoint (JObj m) hdr rand s =
    let method := field m "method" in
    let req_id := field m "id" in
    if negb (eq_str method "mcp_discover") && no_client_id hdr then
      (Ok (Response
             (error_body (-32600) "Missing X-Client-ID header" req_id) 400),
       s)
    else if eq_str method "mcp_discover" then
      (Ok (Response (success_body req_id method_list) 200), s)
    else if eq_str method "add" then
      let params := default (JObj ∅) (m !! "params") in
      match missing_operand params with
      | Raise e => (Raise e, s)
      | Ok true =>
          (Ok (Response (error_body (-32602) "Invalid parameters" req_id)
                 400), s)
      | Ok false =>
          let request_id := Uuid.str (Uuid.uuid4 rand) in
          (Ok (Response (success_body req_id (pending_ack request_id)) 200),
           accepted request_id params hdr s)
      end
    else
      (Ok (Response (error_body (-32601) "Method not found" req_id) 404), s).
Proof.
  intros Hv. apply eq_str_field in Hv.
  unfold jsonrpc_endpoint, bind, lift, ret, modify.
  rewrite invalid_envelope_obj, Hv. simpl.
  fold (field m "method") (field m "id").
  repeat case_match; simplify_eq; reflexivity.
Qed.

Lemma missing_operand_obj p :
  missing_operand (JObj p) =
    Ok (negb (bool_decide (is_Some (p !! "a"))
              && bool_decide (is_Some (p !! "b")))).
Proof.
  unfold missing_operand. simpl.
  by destruct (bool_decide (is_Some (p !! "a"))).
Qed.

(** The handler on a well-formed [add] submission. *)
Lemma jsonrpc_endpoint_add m p hdr a b rand s :
  add_submission m p hdr a b ->
  jsonrpc_endpoint (JObj m) hdr rand s =
    (Ok (Response (success_body (field m "id")
                     (pending_ack (Uuid.str (Uuid.uuid4 rand)))) 200),
     accepted (Uuid.str (Uuid.uuid4 rand)) (JObj p) hdr s).
Proof.
  intros [He Hm Hc Hp Ha Hb].
  rewrite (jsonrpc_endpoint_valid _ _ _ _ He). cbv zeta.
  rewrite Hc, andb_false_r, (eq_str_field_true _ _ "add") by done.
  rewrite eq_str_field_false by (rewrite Hm; congruence).
  rewrite Hp. simpl. rewrite missing_operand_obj, Ha, Hb.
  by rewrite !bool_decide_true by eauto.
Qed.

Lemma erroneous_response hdr data e id rand s :
  erroneous hdr data e id ->
  jsonrpc_endpoint data hdr rand s =
    (Ok (Response (error_body (error_code e) (error_message e) id)
           (error_status e)), s).
Proof.
  intros [d Hd | m Hm | m He Hm Hc | m p He Hm Hc Hp Hab | m He Hd Ha Hc].
  - apply jsonrpc_endpoint_invalid. unfold invalid_envelope. by rewrite Hd.
  - apply jsonrpc_endpoint_invalid. rewrite invalid_envelope_obj.
    by rewrite eq_str_field_false.
  - rewrite (jsonrpc_endpoint_valid _ _ _ _ He). cbv zeta.
    by rewrite Hc, eq_str_field_false.
  - rewrite (jsonrpc_endpoint_valid _ _ _ _ He). cbv zeta.
    rewrite Hc, andb_false_r, (eq_str_field_true _ _ "add") by done.
    rewrite eq_str_field_false by (rewrite Hm; congruence).
    rewrite Hp, missing_operand_obj.
    destruct Hab as [-> | ->];
      rewrite (bool_decide_false (is_Some None)) by (intros [? [=]]);
      by rewrite ?andb_false_r.
  - rewrite (jsonrpc_endpoint_valid _ _ _ _ He). cbv zeta.
    by rewrite Hc, andb_false_r, !eq_str_field_false.
Qed.

(** A handler call that does not succeed leaves the server as it was. *)
Lemma failed_unchanged data hdr rand s r s' :
  jsonrpc_endpoint data hdr rand s = (r, s') -> failed r -> s' = s.
Proof.
  destruct (invalid_envelope data) as [[|]|e] eqn:Henv.
  - rewrite jsonrpc_endpoint_invalid by done. by intros [= <- <-].
  - apply invalid_envelope_false in Henv as (m & -> & He).
    rewrite (jsonrpc_endpoint_valid _ _ _ _ He). cbv zeta.
    repeat case_match; intros [= <- <-]; simpl; done || congruence.
  - rewrite (jsonrpc_endpoint_raise _ _ _ _ e) by done. by intros [= <- <-].
Qed.

(** Every response with a status other than 200 is an error envelope. *)
Lemma missing_operand_raise params e :
  missing_operand params = Raise e <-> scalar params = true /\ e = TypeError.
Proof.
  unfold missing_operand.
  destruct params; simpl; repeat case_match; simpl; split;
    try discriminate; try (intros [? ?]; discriminate);
    try (intros [= <-]; done); try (intros [_ ->]; done).
Qed.

Lemma invalid_envelope_raise hdr data e :
  invalid_envelope data = Raise e -> crashes hdr data /\ e = TypeError.
Proof.
  destruct data as [| b | n | f | s | l | m].
  7: { by rewrite invalid_envelope_obj. }
  all: unfold invalid_envelope; simpl.
  - discriminate.
  - destruct b; [|discriminate]. intros [= <-]. split; [|done].
    by apply Crash_scalar.
  - destruct (n =? 0) eqn:Hn; [discriminate|]. intros [= <-].
    split; [|done]. apply Crash_scalar; [|done]. simpl. by rewrite Hn.
  - destruct (PrimFloat.eqb f 0) eqn:Hf; [discriminate|]. intros [= <-].
    split; [|done]. apply Crash_scalar; [|done]. simpl. by rewrite Hf.
  - destruct (String.eqb s ""); [discriminate|]. simpl.
    destruct (is_substring "jsonrpc" s) eqn:Hs; [|discriminate].
    intros [= <-]. split; [|done]. by apply Crash_str.
  - destruct l as [|x l]; [discriminate|].
    destruct (existsb _ (x :: l)) eqn:Hl; [|discriminate].
    intros [= <-]. split; [|done]. by apply Crash_arr.
Qed.

Lemma crashes_raise hdr data rand s :
  crashes hdr data -> jsonrpc_endpoint data hdr rand s = (Raise TypeError, s).
Proof.
  intros [d Ht Hs | str Hs | l Hl | m He Hm Hc Hp].
  - apply jsonrpc_endpoint_raise. unfold invalid_envelope. rewrite Ht.
    by destruct d.
  - apply jsonrpc_endpoint_raise. unfold invalid_envelope.
    assert (Ht : truthy (JStr str) = true).
    { simpl. by destruct str. }
    rewrite Ht. simpl. by rewrite Hs.
  - apply jsonrpc_endpoint_raise. unfold invalid_envelope.
    assert (Ht : truthy (JArr l) = true) by (by destruct l).
    rewrite Ht. simpl. by rewrite Hl.
  - rewrite (jsonrpc_endpoint_valid _ _ _ _ He). cbv zeta.
    rewrite Hc, andb_false_r, (eq_str_field_true _ _ "add") by done.
    rewrite eq_str_field_false by (rewrite Hm; congruence).
    destruct (missing_operand _) as [b|e] eqn:Hmiss.
    + by destruct (default (JObj ∅) (m !! "params")).
    + by apply missing_operand_raise in Hmiss as [_ ->].
Qed.

Lemma jsonrpc_endpoint_raises data hdr rand s e s' :
  jsonrpc_endpoint data hdr rand s = (Raise e, s') ->
  crashes hdr data /\ e = TypeError /\ s' = s.
Proof.
  intros Hrun.
  destruct (invalid_envelope data) as [[|]|e0] eqn:Henv.
  - by rewrite jsonrpc_endpoint_invalid in Hrun.
  - apply invalid_envelope_false in Henv as (m & -> & He).
    rewrite (jsonrpc_endpoint_valid _ _ _ _ He) in Hrun. cbv zeta in Hrun.
    destruct (negb _ && no_client_id hdr) eqn:Hc; [done|].
    destruct (eq_str (field m "method") "mcp_discover") eqn:Hd; [done|].
    destruct (eq_str (field m "method") "add") eqn:Ha; [|done].
    destruct (missing_operand _) as [[|]|e1] eqn:Hmiss; try done.
    injection Hrun as <- <-.
    apply missing_operand_raise in Hmiss as [Hs ->].
    split; [|done].
    apply Crash_params; try done; try (by apply eq_str_field);
      simpl in Hc; by destruct (no_client_id hdr).
  - rewrite (jsonrpc_endpoint_raise _ _ _ _ e0) in Hrun by done.
    injection Hrun as <- <-.
    by destruct (invalid_envelope_raise hdr data e0 Henv) as [Hcr ->].
Qed.

Lemma jsonrpc_route_ok data hdr rand s :
  jsonrpc_route (Ok data) hdr rand s = jsonrpc_endpoint data hdr rand s.
Proof. reflexivity. Qed.

Lemma jsonrpc_route_raise e hdr rand s :
  jsonrpc_route (Raise e) hdr rand s = (Raise e, s).
Proof. reflexivity. Qed.


(** C8: on a well-formed envelope whose method is [mcp_discover] the
    handler answers 200 with the request's [id] and the static list of
    the two methods, [mcp_discover] without parameters and [add] with
    the parameters [a] and [b] of type [number], whatever the
    [X-Client-ID] header, the random draw and the server state are; it
    leaves the server state as it was; and two such calls, in any two
    states, carry the same [result]. *)
Theorem mcp_discover_static m hdr rand s m' hdr' rand' s' :
  m !! "jsonrpc" = Some (JStr "2.0") ->
  m !! "method" = Some (JStr "mcp_discover") ->
  m' !! "jsonrpc" = Some (JStr "2.0") ->
  m' !! "method" = Some (JStr "mcp_discover") ->
  jsonrpc_endpoint (JObj m) hdr rand s =
    (Ok (Response
           (JObj {[
              "jsonrpc" := JStr "2.0";
              "id" := field m "id";
              "result" := JObj {[ "methods" := JArr [
                JObj {[ "name" := JStr "mcp_discover";
                        "description" := JStr "List available methods";
                        "parameters" := JArr [] ]};
                JObj {[ "name" := JStr "add";
                        "description" := JStr "Add two numbers";
                        "parameters" := JArr [
                          JObj {[ "name" := JStr "a";
                                  "type" := JStr "number" ]};
                          JObj {[ "name" := JStr "b";
                                  "type" := JStr "number" ]} ] ]} ] ]} ]})
           200), s)
  /\ member (body_of (fst (jsonrpc_endpoint (JObj m) hdr rand s))) "result"
     = member (body_of (fst (jsonrpc_endpoint (JObj m') hdr' rand' s')))
         "result"
  /\ member (body_of (fst (jsonrpc_endpoint (JObj m) hdr rand s))) "result"
     = Some method_list.
Proof.
  intros He Hm He' Hm'.
  rewrite (jsonrpc_endpoint_valid _ _ _ _ He).
  rewrite (jsonrpc_endpoint_valid _ _ _ _ He'). cbv zeta.
  by rewrite !eq_str_field_true.
Qed.

Lemma mcp_discover_static_witness :
  let m : gmap string json :=
    {[ "jsonrpc" := JStr "2.0"; "method" := JStr "mcp_discover";
       "id" := JInt 7 ]} in
  let m' : gmap string json :=
    {[ "jsonrpc" := JStr "2.0"; "method" := JStr "mcp_discover" ]} in
  jsonrpc_endpoint (JObj m) None 0 (registered "abc") =
    (Ok (Response (success_body (JInt 7) method_list) 200),
     registered "abc").
Proof.
  intros m m'.
  apply (proj1 (mcp_discover_static m None 0 (registered "abc")
                  m' (Some "xyz") 1 init_subscriptions
                  eq_refl eq_refl eq_refl eq_refl)).
Defined.

Lemma scenario_submission :
  add_submission scenario_request scenario_params (Some "abc")
    (JInt 2) (JInt 3).
Proof. split; reflexivity. Defined.

(** C4: each synchronous error (invalid envelope, missing client
    identifier, unknown method, missing [a] or [b]) is answered with its
    error response and the server state as it was; and whenever the
    handler does not answer 200, no entry has been added to
    [pending_requests] and no thread has been started: the whole state
    is the one before the request. *)
Theorem sync_error_no_side_effect data hdr rand s :
  (forall e id, erroneous hdr data e id ->
     jsonrpc_endpoint data hdr rand s =
       (Ok (Response (error_body (error_code e) (error_message e) id)
              (error_status e)), s)
     /\ error_status e <> 200)
  /\ (forall r s', jsonrpc_endpoint data hdr rand s = (r, s') -> failed r ->
        s' = s /\ pending_requests s' = pending_requests s
        /\ threads s' = threads s).
Proof.
  split.
  - intros e id He. split; [by apply erroneous_response|].
    by destruct e.
  - intros r s' Hrun Hfail.
    by rewrite (failed_unchanged _ _ _ _ _ _ Hrun Hfail).
Qed.

Lemma sync_error_no_side_effect_witness :
  let m : gmap string json :=
    {[ "jsonrpc" := JStr "2.0"; "method" := JStr "add"; "id" := JInt 1;
       "params" := JObj {[ "a" := JInt 2 ]} ]} in
  jsonrpc_endpoint (JObj m) (Some "abc") 0 (registered "abc") =
    (Ok (Response (error_body (-32602) "Invalid parameters" (JInt 1)) 400),
     registered "abc")
  /\ forall r s',
       jsonrpc_endpoint (JObj m) (Some "abc") 0 (registered "abc") = (r, s')
       -> failed r -> s' = registered "abc".
Proof.
  intros m.
  destruct (sync_error_no_side_effect (JObj m) (Some "abc") 0
              (registered "abc")) as [Herr Hfail].
  split.
  - apply (Herr InvalidParameters (JInt 1)).
    exact (Err_params (Some "abc") m {[ "a" := JInt 2 ]}
             eq_refl eq_refl eq_refl eq_refl (or_intror eq_refl)).
  - intros r s' Hrun Hf. by destruct (Hfail r s' Hrun Hf).
Defined.




(** C10: the parameter check of [add] looks at the presence of the keys
    [a] and [b] only: whatever JSON values they hold, a submission with
    a non-empty [X-Client-ID] is accepted and acknowledged as pending. *)
Theorem add_checks_presence_only m p hdr a b rand s :
  add_submission m p hdr a b ->
  exists request_id,
    jsonrpc_endpoint (JObj m) hdr rand s =
      (Ok (Response (success_body (field m "id") (pending_ack request_id))
             200),
       accepted request_id (JObj p) hdr s).
Proof. intros Hsub. eexists. by apply (jsonrpc_endpoint_add m p hdr a b). Qed.

Lemma add_checks_presence_only_witness :
  let p : gmap string json :=
    {[ "a" := JStr "two"; "b" := JObj {[ "c" := JNull ]} ]} in
  let m : gmap string json :=
    {[ "jsonrpc" := JStr "2.0"; "method" := JStr "add"; "params" := JObj p ]}
  in
  exists request_id,
    jsonrpc_endpoint (JObj m) (Some "abc") 5 (registered "abc") =
      (Ok (Response (success_body JNull (pending_ack request_id)) 200),
       accepted request_id (JObj p) (Some "abc") (registered "abc")).
Proof.
  intros p m.
  apply (add_checks_presence_only m p (Some "abc")
           (JStr "two") (JObj {[ "c" := JNull ]})).
  split; reflexivity.
Defined.

(** C2, as the code has it: the acknowledgment of a well-formed [add]
    submission is [{status: "pending", requestId: <id>}]; the identifier
    is under the key [requestId], it is a well-formed version-4 UUID,
    and two submissions get distinct identifiers exactly when their
    random draws differ in a bit [uuid4] keeps. *)
Theorem add_acknowledgment m p hdr a b rand s :
  add_submission m p hdr a b ->
  let request_id := Uuid.str (Uuid.uuid4 rand) in
  fst (jsonrpc_endpoint (JObj m) hdr rand s) =
    Ok (Response
          (JObj {[ "jsonrpc" := JStr "2.0";
                   "id" := field m "id";
                   "result" := JObj {[ "status" := JStr "pending";
                                       "requestId" := JStr request_id ]} ]})
          200)
  /\ Uuid.is_uuid4_string request_id = true
  /\ forall rand',
       Uuid.str (Uuid.uuid4 rand') <> request_id <->
       Z.land rand' Uuid.kept_bits <> Z.land rand Uuid.kept_bits.
Proof.
  intros Hsub request_id. split; [|split].
  - by rewrite (jsonrpc_endpoint_add m p hdr a b rand s Hsub).
  - apply UuidFacts.is_uuid4_string_str.
  - intros rand'. unfold request_id. by rewrite UuidFacts.str_uuid4_eq.
Qed.

Lemma add_acknowledgment_witness :
  fst (jsonrpc_endpoint (JObj scenario_request) (Some "abc") 0
         (registered "abc")) =
    Ok (Response
          (success_body (JInt 1)
             (pending_ack "00000000-0000-4000-8000-000000000000")) 200)
  /\ Uuid.is_uuid4_string "00000000-0000-4000-8000-000000000000" = true.
Proof.
  destruct (add_acknowledgment scenario_request scenario_params
              (Some "abc") (JInt 2) (JInt 3) 0 (registered "abc")
              scenario_submission) as (Hack & Hwf & _).
  split; [exact Hack | exact Hwf].
Defined.

(** C2, as stated, fails: the acknowledgment of the scenario's
    submission has no member [jobId]; the identifier is under
    [requestId]. *)
Lemma add_acknowledgment_has_no_jobId :
  let r := fst (jsonrpc_endpoint (JObj scenario_request) (Some "abc") 0
                  init_subscriptions) in
  let ack := default JNull (member (body_of r) "result") in
  member ack "status" = Some (JStr "pending")
  /\ member ack "jobId" = None
  /\ member ack "requestId" =
       Some (JStr "00000000-0000-4000-8000-000000000000").
Proof. vm_compute. repeat split. Qed.

(** ** The executor *)

Lemma notify_client_registered client_id event_type data s queue :
  subscribed s client_id = Some queue ->
  notify_client client_id event_type data s =
    (Ok tt,
     set_heap (alter (fun l => l ++ [(event_type, data)]) queue) s).
Proof. intros H. unfold notify_client. by rewrite H. Qed.

Lemma notify_client_unregistered client_id event_type data s :
  subscribed s client_id = None ->
  notify_client client_id event_type data s = (Ok tt, s).
Proof. intros H. unfold notify_client. by rewrite H. Qed.

Lemma process_add_notify_ok request_id params client_id r s :
  sum_of_params params = Ok r ->
  process_add_notify request_id params client_id s =
    notify_client client_id "result" (result_event request_id r) s.
Proof. intros H. unfold process_add_notify, bind, lift. by rewrite H. Qed.

Lemma process_add_notify_raise request_id params client_id e s :
  sum_of_params params = Raise e ->
  process_add_notify request_id params client_id s = (Raise e, s).
Proof. intros H. unfold process_add_notify, bind, lift. by rewrite H. Qed.

(** [notify_client] writes to the list of its client and to nothing
    else. *)
Lemma notify_client_frame client_id event_type data s :
  let s' := snd (notify_client client_id event_type data s) in
  fst (notify_client client_id event_type data s) = Ok tt
  /\ pending_requests s' = pending_requests s
  /\ subscriptions s' = subscriptions s
  /\ threads s' = threads s
  /\ streams s' = streams s
  /\ forall q, subscribed s client_id <> Some q -> heap s' !! q = heap s !! q.
Proof.
  unfold notify_client.
  destruct (subscribed s client_id) as [queue|]; simpl; repeat split; try done.
  intros q Hq. apply lookup_alter_ne. congruence.
Qed.

Lemma process_add_cleanup_spec request_id s :
  process_add_cleanup request_id s =
    (Ok tt, set_pending_requests (delete request_id) s).
Proof.
  unfold process_add_cleanup, modify. f_equal.
  destruct (pending_requests s !! request_id) eqn:Hk; [done|].
  destruct s. unfold set_pending_requests. simpl in *.
  by rewrite delete_id.
Qed.

Lemma process_add_ok request_id params client_id r s :
  sum_of_params params = Ok r ->
  process_add request_id params client_id s =
    (Ok tt,
     set_pending_requests (delete request_id)
       (snd (notify_client client_id "result"
               (result_event request_id r) s))).
Proof.
  intros Hr. unfold process_add, bind.
  rewrite (process_add_notify_ok _ _ _ r) by done.
  pose proof (notify_client_frame client_id "result"
                (result_event request_id r) s) as [Hok _].
  destruct (notify_client _ _ _ s) as [res s1]. simpl in *. subst res.
  apply process_add_cleanup_spec.
Qed.

Lemma sum_of_params_obj p a b :
  p !! "a" = Some a -> p !! "b" = Some b ->
  sum_of_params (JObj p) = Py.add a b.
Proof. intros Ha Hb. unfold sum_of_params. simpl. by rewrite Ha, Hb. Qed.

(** C1, as the code has it: for an accepted [add] whose operands add up
    to [r], the handler starts the executor with the generated tracking
    identifier, and the event the executor appends to the queue of the
    submitting client is [("result", {jsonrpc: "2.0", id: <tracking
    identifier>, result: r})]: the [id] is the identifier returned to
    the client as [requestId], and [r] is the integer sum for [int]
    operands and the binary64 sum for [float] operands. *)
Theorem result_event_payload m p hdr a b r rand s :
  add_submission m p hdr a b ->
  Py.add a b = Ok r ->
  let request_id := Uuid.str (Uuid.uuid4 rand) in
  let payload :=
    JObj {[ "jsonrpc" := JStr "2.0"; "id" := JStr request_id;
            "result" := r ]} in
  jsonrpc_endpoint (JObj m) hdr rand s =
    (Ok (Response (success_body (field m "id") (pending_ack request_id))
           200),
     accepted request_id (JObj p) hdr s)
  /\ (forall s2 q old,
        subscribed s2 hdr = Some q -> heap s2 !! q = Some old ->
        exists s3,
          process_add request_id (JObj p) hdr s2 = (Ok tt, s3)
          /\ heap s3 !! q = Some (old ++ [("result", payload)]))
  /\ (forall x y, a = JInt x -> b = JInt y -> r = JInt (x + y))
  /\ (forall x y, a = JFloat x -> b = JFloat y ->
        r = JFloat (PrimFloat.add x y)).
Proof.
  intros Hsub Hr request_id payload. split; [|split; [|split]].
  - by apply (jsonrpc_endpoint_add m p hdr a b).
  - intros s2 q old Hq Hold. eexists. split.
    + apply (process_add_ok _ _ _ r).
      destruct Hsub. by rewrite (sum_of_params_obj p a b).
    + rewrite (notify_client_registered _ _ _ _ q Hq). simpl.
      by rewrite lookup_alter_eq, Hold.
  - intros x y -> ->. cbv [Py.add as_number add_number] in Hr. congruence.
  - intros x y -> ->. cbv [Py.add as_number add_number] in Hr. congruence.
Qed.

Lemma result_event_payload_witness :
  let request_id := "00000000-0000-4000-8000-000000000000" in
  exists s3,
    process_add request_id (JObj scenario_params) (Some "abc")
      (registered "abc") = (Ok tt, s3)
    /\ heap s3 !! 0%nat =
         Some [("result",
                JObj {[ "jsonrpc" := JStr "2.0"; "id" := JStr request_id;
                        "result" := JInt 5 ]})].
Proof.
  intros request_id.
  destruct (result_event_payload scenario_request scenario_params
              (Some "abc") (JInt 2) (JInt 3) (JInt 5) 0 (registered "abc")
              scenario_submission eq_refl) as (_ & Hrun & _).
  exact (Hrun (registered "abc") 0%nat [] eq_refl eq_refl).
Defined.

(** C1, as stated, fails: in the scenario the client chose the id [1],
    and the event appended to its queue carries the tracking identifier
    instead. *)
Lemma result_event_id_is_tracking_id :
  let posted :=
    jsonrpc_endpoint (JObj scenario_request) (Some "abc") 0
      (registered "abc") in
  let request_id := "00000000-0000-4000-8000-000000000000" in
  let s3 :=
    snd (process_add request_id (JObj scenario_params) (Some "abc")
           (snd posted)) in
  member (JObj scenario_request) "id" = Some (JInt 1)
  /\ member (body_of (fst posted)) "id" = Some (JInt 1)
  /\ threads (snd posted) =
       [Started (Task request_id (JObj scenario_params) (Some "abc"))]
  /\ map (fun ev => (fst ev, member (snd ev) "id", member (snd ev) "result"))
       (default [] (client_queue s3 "abc")) =
     [("result", Some (JStr request_id), Some (JInt 5))].
Proof. vm_compute. repeat split. Qed.

(** C5: the executor of an accepted job is started with the client
    identifier of the submitting request, and running it leaves
    [subscriptions] as it was and writes to no list but the one
    registered for that client: the queue of every other client is
    unchanged. *)
Theorem result_event_only_for_submitter m p hdr a b rand s :
  add_submission m p hdr a b ->
  let request_id := Uuid.str (Uuid.uuid4 rand) in
  threads (snd (jsonrpc_endpoint (JObj m) hdr rand s)) =
    threads s ++ [Started (Task request_id (JObj p) hdr)]
  /\ forall s2,
       let s3 := snd (process_add request_id (JObj p) hdr s2) in
       subscriptions s3 = subscriptions s2
       /\ (forall q, subscribed s2 hdr <> Some q ->
             heap s3 !! q = heap s2 !! q)
       /\ (well_formed s2 -> forall c, hdr <> Some c ->
             client_queue s3 c = client_queue s2 c).
Proof.
  intros Hsub request_id. split.
  - by rewrite (jsonrpc_endpoint_add m p hdr a b rand s Hsub).
  - intros s2 s3.
    assert (Hframe : subscriptions s3 = subscriptions s2
                     /\ forall q, subscribed s2 hdr <> Some q ->
                          heap s3 !! q = heap s2 !! q).
    { unfold s3. destruct (sum_of_params (JObj p)) as [r|e] eqn:Hr.
      - rewrite (process_add_ok _ _ _ r) by done. simpl.
        pose proof (notify_client_frame hdr "result"
                      (result_event request_id r) s2) as H.
        simpl in H. tauto.
      - unfold process_add, bind.
        by rewrite (process_add_notify_raise _ _ _ e). }
    destruct Hframe as [Hsubs Hheap]. repeat split; [done..|].
    intros Hwf c Hc. unfold client_queue. rewrite Hsubs.
    destruct (subscriptions s2 !! c) as [q|] eqn:Hq; [simpl|done].
    apply Hheap. destruct hdr as [c0|]; [|done]. simpl.
    intros Hq0. apply Hc. f_equal.
    by apply (wf_distinct s2 Hwf c0 c q).
Qed.

Lemma well_formed_two_clients : well_formed two_clients.
Proof.
  split; simpl.
  - intros c q [[<- <-] | [_ [<- <-]%lookup_singleton_Some]]%lookup_insert_Some;
      by eexists.
  - intros c1 c2 q H1 H2.
    apply lookup_insert_Some in H1 as [[<- <-] | [_ H1]];
      apply lookup_insert_Some in H2 as [[<- ?] | [_ H2]];
      try done;
      repeat match goal with
             | H : {[ _ := _ ]} !! _ = Some _ |- _ =>
                 apply lookup_singleton_Some in H as [<- ?]
             end; congruence.
Qed.

Lemma result_event_only_for_submitter_witness :
  let s3 :=
    snd (process_add "00000000-0000-4000-8000-000000000000"
           (JObj scenario_params) (Some "abc") two_clients) in
  client_queue s3 "xyz" = Some [("result", JInt 7)].
Proof.
  intros s3.
  destruct (result_event_only_for_submitter scenario_request
              scenario_params (Some "abc") (JInt 2) (JInt 3) 0 two_clients
              scenario_submission) as [_ Hrun].
  destruct (Hrun two_clients) as (_ & _ & Hother).
  exact (Hother well_formed_two_clients "xyz" ltac:(discriminate)).
Defined.

(** C6: an executor that gets as far as [notify_client] (its operands
    add up) runs to its end, and then the record of its job is gone
    from [pending_requests] while every other record is as before;
    removing a record that is absent, a second time or ever, changes
    nothing and raises nothing. *)
Theorem job_record_removed request_id params client_id r s :
  sum_of_params params = Ok r ->
  exists s',
    process_add request_id params client_id s = (Ok tt, s')
    /\ pending_requests s' !! request_id = None
    /\ (forall k, k <> request_id ->
          pending_requests s' !! k = pending_requests s !! k)
    /\ process_add_cleanup request_id s' = (Ok tt, s')
    /\ (forall s0, pending_requests s0 !! request_id = None ->
          process_add_cleanup request_id s0 = (Ok tt, s0)).
Proof.
  intros Hr. eexists. split; [by apply (process_add_ok _ _ _ r)|].
  pose proof (notify_client_frame client_id "result"
                (result_event request_id r) s) as (_ & Hpend & _).
  simpl in Hpend. simpl. rewrite Hpend.
  split; [apply lookup_delete_eq|].
  split; [intros k Hk; by apply lookup_delete_ne|].
  split.
  - unfold process_add_cleanup, modify. simpl.
    by rewrite Hpend, lookup_delete_eq.
  - intros s0 H0. unfold process_add_cleanup, modify. by rewrite H0.
Qed.

Lemma job_record_removed_witness :
  exists s',
    process_add "job-1" (JObj scenario_params) (Some "abc") two_clients
      = (Ok tt, s')
    /\ pending_requests s' !! "job-1" = None
    /\ process_add_cleanup "job-1" s' = (Ok tt, s').
Proof.
  destruct (job_record_removed "job-1" (JObj scenario_params) (Some "abc")
              (JInt 5) two_clients eq_refl)
    as (s' & Hrun & Hgone & _ & Hid & _).
  exists s'. repeat split; assumption.
Defined.

(** An executor whose operands do not add up dies before its clean-up:
    the record of its job stays in [pending_requests]. *)
Lemma process_add_crash request_id params client_id e s :
  sum_of_params params = Raise e ->
  process_add request_id params client_id s = (Raise e, s).
Proof.
  intros He. unfold process_add, bind.
  by rewrite (process_add_notify_raise _ _ _ e).
Qed.

(** ** The event stream *)

Lemma generate_sse_enter_registered client_id s queue :
  subscriptions s !! client_id = Some queue ->
  generate_sse_enter client_id s = (Ok queue, s).
Proof. intros H. unfold generate_sse_enter. by rewrite H. Qed.

(** Opening a stream never writes to [subscriptions]. *)
Lemma generate_sse_enter_subscriptions client_id s :
  subscriptions (snd (generate_sse_enter client_id s)) = subscriptions s.
Proof.
  unfold generate_sse_enter. by destruct (subscriptions s !! client_id).
Qed.

(** C3, on the server as it starts: after client [abc] has opened its
    event stream there is still no queue for [abc] in [subscriptions]
    (the stream polls a list of its own), so an event notified for
    [abc] afterwards is dropped. *)
Lemma event_stream_does_not_register :
  let opened := generate_sse_enter "abc" init_subscriptions in
  let s1 := snd opened in
  fst opened = Ok 0%nat
  /\ subscriptions s1 !! "abc" = None
  /\ client_queue s1 "abc" = None
  /\ heap s1 !! 0%nat = Some []
  /\ notify_client (Some "abc") "result" (JInt 5) s1 = (Ok tt, s1).
Proof. vm_compute. repeat split. Qed.

(** ** Runs of the server *)

Lemma jsonrpc_endpoint_state data hdr rand s :
  snd (jsonrpc_endpoint data hdr rand s) = s
  \/ exists request_id params,
       snd (jsonrpc_endpoint data hdr rand s) =
         accepted request_id params hdr s.
Proof.
  destruct (invalid_envelope data) as [[|]|e] eqn:Henv.
  - rewrite jsonrpc_endpoint_invalid by done. by left.
  - apply invalid_envelope_false in Henv as (m & -> & He).
    rewrite (jsonrpc_endpoint_valid _ _ _ _ He). cbv zeta.
    repeat case_match; simpl; eauto.
  - rewrite (jsonrpc_endpoint_raise _ _ _ _ e) by done. by left.
Qed.

Lemma well_formed_ext s s' :
  subscriptions s' = subscriptions s ->
  (forall q, is_Some (heap s !! q) -> is_Some (heap s' !! q)) ->
  well_formed s -> well_formed s'.
Proof.
  intros Hsubs Hheap [Halloc Hdist]. split; rewrite Hsubs; eauto.
Qed.

Lemma content_ext s s' q :
  heap s' !! q = heap s !! q -> content s' q = content s q.
Proof. unfold content. by intros ->. Qed.

Section Runs.

Variable json_dumps : json -> result string.

Local Abbreviation keeps := (step_keeps json_dumps).

Lemma step_keeps_silent q s s' :
  well_formed s -> subscriptions s' = subscriptions s ->
  heap s' = heap s -> keeps q s s' [].
Proof.
  intros Hwf Hsubs Hheap. split_keeps.
  - apply (well_formed_ext s); [done| |done]. by rewrite Hheap.
  - done.
  - simpl. rewrite app_nil_r. apply content_ext. by rewrite Hheap.
  - done.
  - done.
Qed.

Lemma step_post q s data hdr rand :
  well_formed s ->
  keeps q s (snd (jsonrpc_endpoint data hdr rand s))
    [Responded (fst (jsonrpc_endpoint data hdr rand s))].
Proof.
  intros Hwf.
  destruct (jsonrpc_endpoint_state data hdr rand s) as [-> | (? & ? & ->)];
    by apply (step_keeps_silent q s).
Qed.

Lemma step_enter q s client_id :
  well_formed s ->
  keeps q s (snd (generate_sse_enter client_id s)) [].
Proof.
  intros Hwf. unfold generate_sse_enter.
  destruct (subscriptions s !! client_id) as [q0|]; simpl.
  { by apply step_keeps_silent. }
  pose proof (is_fresh (dom (heap s))) as Hfresh.
  rewrite elem_of_dom in Hfresh.
  set (q0 := fresh (dom (heap s))) in *.
  split_keeps.
  - apply (well_formed_ext s); [done| |done]. simpl. intros q' Hq'.
    destruct (decide (q0 = q')) as [<- | Hne]; [done|].
    by rewrite lookup_insert_ne.
  - done.
  - simpl. rewrite app_nil_r. unfold content. simpl.
    destruct (decide (q0 = q)) as [<- | Hne].
    + rewrite lookup_insert_eq.
      by destruct (heap s !! q0) eqn:Hq; [destruct Hfresh; eauto|].
    + by rewrite lookup_insert_ne.
  - done.
  - done.
Qed.

Lemma generate_sse_test_state queue s :
  snd (generate_sse_test queue s) = s.
Proof. unfold generate_sse_test. by repeat case_match. Qed.

Lemma step_pop q s i queue :
  well_formed s ->
  let r := generate_sse_pop json_dumps queue s in
  keeps q s (snd r)
    match fst r with
    | Ok (ev, frame) => [Yielded i queue ev frame]
    | Raise e =>
        match oldest s queue with
        | Some ev => [Dropped i queue ev e]
        | None => []
        end
    end.
Proof.
  intros Hwf. unfold generate_sse_pop, oldest.
  destruct (heap s !! queue) as [[|ev rest]|] eqn:Hq; simpl;
    try by apply step_keeps_silent.
  assert (Hkeep : forall os,
    popped_from q os = (if decide (queue = q) then [ev] else []) ->
    appended_to q os = [] ->
    yielded_from q os =
      filter (fun ev => is_Some (frame_of json_dumps ev)) (popped_from q os) ->
    frames_from q os = omap (frame_of json_dumps) (popped_from q os) ->
    keeps q s (set_heap (<[queue := rest]>) s) os).
  { intros os Hpop Happ Hy Hf. split_keeps; try done.
    - apply (well_formed_ext s); [done| |done]. simpl. intros q' Hq'.
      destruct (decide (queue = q')) as [<- | Hne].
      + by rewrite lookup_insert_eq.
      + by rewrite lookup_insert_ne.
    - rewrite Hpop, Happ, app_nil_r. unfold content. simpl.
      destruct (decide (queue = q)) as [<- | Hne]; simpl.
      + by rewrite lookup_insert_eq, Hq.
      + by rewrite lookup_insert_ne. }
  destruct (json_dumps (snd ev)) as [text|e] eqn:Hdumps; simpl;
    apply Hkeep; unfold popped_from, yielded_from, frames_from; simpl;
    try done; destruct (decide (queue = q)); try done.
  - assert (HP : is_Some (frame_of json_dumps ev)).
    { unfold frame_of. rewrite Hdumps. by eexists. }
    by rewrite filter_cons_True.
  - simpl. unfold frame_of. by rewrite Hdumps.
  - assert (HP : ~ is_Some (frame_of json_dumps ev)).
    { unfold frame_of. rewrite Hdumps. by intros [? [=]]. }
    by rewrite filter_cons_False.
  - simpl. unfold frame_of. by rewrite Hdumps.
Qed.

Lemma step_notify q s t :
  well_formed s ->
  let r := process_add_notify (task_request_id t) (task_params t)
             (task_client_id t) s in
  keeps q s (snd r)
    match fst r, pending_event s t with
    | Ok _, Some (queue, ev) => [Appended queue ev]
    | _, _ => []
    end.
Proof.
  intros Hwf. unfold pending_event.
  destruct (sum_of_params (task_params t)) as [r|e] eqn:Hr.
  2: { rewrite (process_add_notify_raise _ _ _ e) by done. simpl.
       by apply step_keeps_silent. }
  rewrite (process_add_notify_ok _ _ _ r) by done.
  destruct (subscribed s (task_client_id t)) as [q0|] eqn:Hq0.
  2: { rewrite notify_client_unregistered by done. simpl.
       by apply step_keeps_silent. }
  rewrite (notify_client_registered _ _ _ _ q0) by done. simpl.
  assert (Hold : is_Some (heap s !! q0)).
  { destruct (task_client_id t) as [c|]; [|done].
    by apply (wf_allocated s Hwf c). }
  destruct Hold as [old Hold].
  split_keeps.
  - apply (well_formed_ext s); [done| |done]. simpl. intros q' Hq'.
    by rewrite lookup_alter_is_Some.
  - done.
  - unfold content, popped_from, appended_to. simpl.
    destruct (decide (q0 = q)) as [<- | Hne]; simpl.
    + by rewrite lookup_alter_eq, Hold.
    + by rewrite lookup_alter_ne, app_nil_r.
  - done.
  - done.
Qed.

Lemma step_keeps_threads q s s' os f :
  keeps q s s' os -> keeps q s (set_threads f s') os.
Proof.
  intros (Hwf & Hsubs & Hq & Hy & Hf). split_keeps; try done.
  by apply (well_formed_ext s').
Qed.

Lemma step_keeps_streams q s s' os f :
  keeps q s s' os -> keeps q s (set_streams f s') os.
Proof.
  intros (Hwf & Hsubs & Hq & Hy & Hf). split_keeps; try done.
  by apply (well_formed_ext s').
Qed.

Lemma step_queue q s l :
  well_formed s ->
  keeps q s (fst (step json_dumps s l)) (snd (step json_dumps s l)).
Proof.
  intros Hwf. destruct l as [data hdr rand | client_id | i | i]; cbn [step].
  - pose proof (step_post q s data hdr rand Hwf) as H.
    by destruct (jsonrpc_endpoint data hdr rand s).
  - by apply step_keeps_streams, step_keeps_silent.
  - destruct (streams s !! i)
      as [[client_id | client_id queue | client_id queue | e]|];
      try by apply step_keeps_silent.
    + pose proof (step_enter q s client_id Hwf) as H.
      destruct (generate_sse_enter client_id s) as [[queue|e] s']; simpl in *;
        [by apply step_keeps_streams | done].
    + pose proof (generate_sse_test_state queue s) as H.
      destruct (generate_sse_test queue s) as [[[|]|e] s']; simpl in *;
        subst s'; by apply step_keeps_silent.
    + pose proof (step_pop q s i queue Hwf) as H. cbv zeta in H.
      destruct (generate_sse_pop json_dumps queue s)
        as [[[ev frame]|e] s']; simpl in *; by apply step_keeps_streams.
  - destruct (threads s !! i) as [[t | t | | e]|];
      try by apply step_keeps_silent.
    + pose proof (step_notify q s t Hwf) as H. cbv zeta in H.
      destruct (process_add_notify _ _ _ s) as [[[]|e] s']; simpl in *.
      * by apply step_keeps_threads.
      * by apply step_keeps_threads.
    + rewrite process_add_cleanup_spec. simpl.
      by apply step_keeps_threads, step_keeps_silent.
Qed.

Lemma run_queue q ls s :
  well_formed s ->
  keeps q s (fst (run json_dumps s ls)) (snd (run json_dumps s ls)).
Proof.
  revert s. induction ls as [|l ls IH]; intros s Hwf.
  { by apply step_keeps_silent. }
  cbn [run].
  pose proof (step_queue q s l Hwf) as (Hwf1 & Hsubs1 & Hq1 & Hy1 & Hf1).
  destruct (step json_dumps s l) as [s1 o1]. simpl in *.
  pose proof (IH s1 Hwf1) as (Hwf2 & Hsubs2 & Hq2 & Hy2 & Hf2).
  destruct (run json_dumps s1 ls) as [s2 o2]. simpl in *.
  split_keeps.
  - done.
  - congruence.
  - unfold popped_from, appended_to in *. rewrite !omap_app.
    rewrite <- app_assoc, Hq2, !app_assoc. by rewrite Hq1.
  - unfold yielded_from, popped_from in *.
    by rewrite !omap_app, filter_app, Hy1, Hy2.
  - unfold frames_from, popped_from in *.
    by rewrite !omap_app, Hf1, Hf2.
Qed.

Lemma well_formed_unsubscribed s : subscriptions s = ∅ -> well_formed s.
Proof. intros H. split; rewrite H; intros *; by rewrite lookup_empty. Qed.

Lemma step_unsubscribed q s l :
  subscriptions s = ∅ -> appended_to q (snd (step json_dumps s l)) = [].
Proof.
  intros Hs. destruct l as [data hdr rand | client_id | i | i]; cbn [step].
  - by destruct (jsonrpc_endpoint data hdr rand s).
  - done.
  - repeat case_match; done.
  - assert (Hnone : forall t, pending_event s t = None).
    { intros t. unfold pending_event, subscribed. rewrite Hs.
      destruct (sum_of_params _); [|done].
      destruct (task_client_id t); simpl; [|done].
      by rewrite lookup_empty. }
    repeat case_match; try done.
    congruence.
Qed.

Lemma yielded_among_popped q os :
  yielded_from q os =
    filter (fun ev => is_Some (frame_of json_dumps ev)) (popped_from q os) ->
  popped_from q os = [] -> yielded_from q os = [].
Proof. by intros -> ->. Qed.

(** X17: on the server as [main.py] starts it, no client is ever
    registered, so no event is ever appended to a queue and no stream
    ever yields a frame. *)
Lemma no_event_is_ever_delivered ls q :
  let s' := fst (run json_dumps init_subscriptions ls) in
  let os := snd (run json_dumps init_subscriptions ls) in
  subscriptions s' = ∅ /\ appended_to q os = [] /\ yielded_from q os = [].
Proof.
  assert (Happ : forall s, subscriptions s = ∅ ->
            subscriptions (fst (run json_dumps s ls)) = ∅
            /\ appended_to q (snd (run json_dumps s ls)) = []).
  { induction ls as [|l ls' IH]; intros s Hs; [done|]. cbn [run].
    pose proof (step_unsubscribed q s l Hs) as Ho.
    pose proof (step_queue q s l (well_formed_unsubscribed s Hs))
      as (_ & Hsubs & _).
    destruct (step json_dumps s l) as [s1 o1]. simpl in *.
    rewrite Hs in Hsubs. destruct (IH s1 Hsubs) as [Hs2 Ho2].
    destruct (run json_dumps s1 ls') as [s2 o2]. simpl in *.
    split; [done|]. unfold appended_to in *. by rewrite omap_app, Ho, Ho2. }
  intros s' os. subst s' os.
  destruct (Happ init_subscriptions eq_refl) as [Hs Ho].
  split; [done|]. split; [done|].
  pose proof (run_queue q ls init_subscriptions
                (well_formed_unsubscribed init_subscriptions eq_refl))
    as (_ & _ & Hq & Hy & _).
  rewrite Ho in Hq. apply yielded_among_popped; [done|].
  by destruct (popped_from q _).
Qed.

End Runs.




(** * Further properties

    ** The request handler *)

(** X1: the view function raises exactly when [request.json], its
    first line, raises on a body that cannot be read as JSON, with
    that exception, or when the body read is one of [crashes]: a
    truthy body that is a number or [true], a string body containing
    ["jsonrpc"], a list body with the element ["jsonrpc"], or an [add]
    with a client identifier whose [params] is [null], a boolean or a
    number; the exception is then a [TypeError].  In each case the
    server state is the one before the request. *)
Theorem handler_raises_exactly request_json hdr rand s :
  (forall e,
     request_json = Raise e ->
     jsonrpc_route request_json hdr rand s = (Raise e, s))
  /\ (forall data,
        request_json = Ok data -> crashes hdr data ->
        jsonrpc_route request_json hdr rand s = (Raise TypeError, s))
  /\ (forall e s',
        jsonrpc_route request_json hdr rand s = (Raise e, s') ->
        s' = s
        /\ (request_json = Raise e
            \/ exists data,
                 request_json = Ok data /\ crashes hdr data
                 /\ e = TypeError)).
Proof.
  split; [|split].
  - by intros e ->.
  - intros data -> Hcr. rewrite jsonrpc_route_ok. by apply crashes_raise.
  - intros e s' Hrun. destruct request_json as [data|e0].
    + rewrite jsonrpc_route_ok in Hrun.
      destruct (jsonrpc_endpoint_raises _ _ _ _ _ _ Hrun) as (Hcr & -> & ->).
      split; [done|]. right. by exists data.
    + rewrite jsonrpc_route_raise in Hrun. injection Hrun as <- <-.
      split; [done|]. by left.
Qed.

Lemma handler_raises_exactly_witness :
  let m : gmap string json :=
    {[ "jsonrpc" := JStr "2.0"; "method" := JStr "add";
       "params" := JNull ]} in
  jsonrpc_route (Ok (JObj m)) (Some "abc") 0 (registered "abc") =
    (Raise TypeError, registered "abc")
  /\ jsonrpc_route (Raise BadRequest) (Some "abc") 0 (registered "abc") =
       (Raise BadRequest, registered "abc").
Proof.
  intros m.
  split.
  - apply (proj1 (proj2 (handler_raises_exactly (Ok (JObj m)) (Some "abc") 0
                           (registered "abc"))) (JObj m) eq_refl).
    by apply Crash_params.
  - apply (proj1 (handler_raises_exactly (Raise BadRequest) (Some "abc") 0
                    (registered "abc")) BadRequest eq_refl).
Defined.

(** X2: every response of the handler, success or error, has the member
    [jsonrpc] equal to ["2.0"] and echoes the [id] of the request
    ([null] when the request has none, and always [null] on the
    invalid-envelope error); it has status 200 and a [result] and no
    [error], or status 400 or 404 and an [error] and no [result]. *)
Theorem response_envelope data hdr rand s rsp s' :
  jsonrpc_endpoint data hdr rand s = (Ok rsp, s') ->
  member (body rsp) "jsonrpc" = Some (JStr "2.0")
  /\ member (body rsp) "id" = Some (echoed_id data)
  /\ (status rsp = 200
      /\ is_Some (member (body rsp) "result")
      /\ member (body rsp) "error" = None
      \/ (status rsp = 400 \/ status rsp = 404)
         /\ is_Some (member (body rsp) "error")
         /\ member (body rsp) "result" = None).
Proof.
  destruct (invalid_envelope data) as [[|]|e] eqn:Henv.
  - rewrite jsonrpc_endpoint_invalid by done. intros [= <- <-].
    assert (Hid : echoed_id data = JNull).
    { destruct data as [| | | | | |m]; try done.
      rewrite invalid_envelope_obj in Henv. injection Henv as Henv.
      simpl. by destruct (eq_str _ _). }
    rewrite Hid. split; [done|]. split; [done|]. right.
    split; [by left|]. split; [by eexists|done].
  - apply invalid_envelope_false in Henv as (m & -> & He).
    rewrite (jsonrpc_endpoint_valid _ _ _ _ He). cbv zeta.
    cbv [echoed_id]. rewrite (eq_str_field_true _ _ _ He).
    repeat case_match; intros [= <- <-]; (split; [done|]);
      (split; [done|]).
    all: first [ left; split; [done|]; split; [by eexists|done]
               | right; split; [by (left + right)|];
                 split; [by eexists|done] ].
  - by rewrite (jsonrpc_endpoint_raise _ _ _ _ e).
Qed.

Lemma response_envelope_witness :
  let rsp :=
    Response (error_body (-32601) "Method not found" (JInt 9)) 404 in
  member (body rsp) "id" = Some (JInt 9)
  /\ member (body rsp) "result" = None.
Proof.
  intros rsp.
  assert (Hrun :
    jsonrpc_endpoint
      (JObj {[ "jsonrpc" := JStr "2.0"; "method" := JStr "sub";
               "id" := JInt 9 ]})
      (Some "abc") 0 (registered "abc") = (Ok rsp, registered "abc"))
    by reflexivity.
  destruct (response_envelope _ _ _ _ _ _ Hrun)
    as (_ & Hid & [(Hst & _) | (_ & _ & Hres)]).
  - discriminate Hst.
  - split; [exact Hid | exact Hres].
Defined.

(** X3: on a body that passes the envelope check, the handler answers
    400 "Missing X-Client-ID header" exactly when the method is not
    [mcp_discover] and the header is absent or empty: the check comes
    before the dispatch on the method and before the look at [params],
    so an unknown method or an [add] without operands gets this answer
    too. *)
Theorem missing_client_id_first m hdr rand s :
  m !! "jsonrpc" = Some (JStr "2.0") ->
  jsonrpc_endpoint (JObj m) hdr rand s =
    (Ok (Response
           (error_body (-32600) "Missing X-Client-ID header" (field m "id"))
           400), s)
  <-> m !! "method" <> Some (JStr "mcp_discover")
      /\ no_client_id hdr = true.
Proof.
  intros He. split.
  - rewrite (jsonrpc_endpoint_valid _ _ _ _ He). cbv zeta.
    destruct (eq_str (field m "method") "mcp_discover") eqn:Hd; simpl.
    { intros Heq. discriminate Heq. }
    apply eq_str_false_field in Hd.
    destruct (no_client_id hdr); [done|].
    destruct (eq_str (field m "method") "add").
    + destruct (missing_operand _) as [[|]|]; intros Heq;
        discriminate Heq.
    + intros Heq. discriminate Heq.
  - intros [Hm Hc].
    apply (erroneous_response hdr (JObj m) MissingClientId).
    by apply Err_client.
Qed.

Lemma missing_client_id_first_witness :
  let m : gmap string json :=
    {[ "jsonrpc" := JStr "2.0"; "method" := JStr "sub"; "id" := JInt 3 ]}
  in
  jsonrpc_endpoint (JObj m) (Some "") 0 (registered "abc") =
    (Ok (Response
           (error_body (-32600) "Missing X-Client-ID header" (JInt 3)) 400),
     registered "abc").
Proof.
  intros m.
  apply (proj2 (missing_client_id_first m (Some "") 0 (registered "abc")
                  eq_refl)).
  split; [discriminate | reflexivity].
Defined.

(** X4: the handler writes to the server state only when it
    acknowledges an [add]: then it binds the new tracking identifier to
    the client identifier in [pending_requests] and starts one thread on
    the [params] of the request.  In every other outcome the state is
    the one before, and in no outcome are [subscriptions], the queues
    or the open streams touched. *)
Theorem handler_writes data hdr rand s :
  let out := jsonrpc_endpoint data hdr rand s in
  subscriptions (snd out) = subscriptions s
  /\ heap (snd out) = heap s
  /\ streams (snd out) = streams s
  /\ (snd out = s
      \/ exists m id,
           let request_id := Uuid.str (Uuid.uuid4 rand) in
           let params := default (JObj ∅) (m !! "params") in
           data = JObj m
           /\ no_client_id hdr = false
           /\ fst out =
                Ok (Response (success_body id (pending_ack request_id)) 200)
           /\ pending_requests (snd out) =
                <[request_id := hdr]> (pending_requests s)
           /\ threads (snd out) =
                threads s ++ [Started (Task request_id params hdr)]).
Proof.
  intros out. unfold out.
  destruct (invalid_envelope data) as [[|]|e] eqn:Henv.
  - rewrite jsonrpc_endpoint_invalid by done. simpl. tauto.
  - apply invalid_envelope_false in Henv as (m & -> & He).
    rewrite (jsonrpc_endpoint_valid _ _ _ _ He). cbv zeta.
    destruct (no_client_id hdr) eqn:Hc; rewrite ?andb_true_r, ?andb_false_r;
      repeat case_match; simpl in *; try discriminate; try tauto.
    do 3 (split; [reflexivity|]). right. exists m, (field m "id").
    cbv zeta. repeat split; reflexivity.
  - rewrite (jsonrpc_endpoint_raise _ _ _ _ e) by done. simpl. tauto.
Qed.

(** X14: on a body that passes the envelope check, the handler
    acknowledges a job as pending exactly when the method is [add], the
    [X-Client-ID] header is not empty, and [params] is a container in
    which both ["a"] and ["b"] are found. *)
Theorem add_accepted_exactly m hdr rand s :
  m !! "jsonrpc" = Some (JStr "2.0") ->
  (exists id request_id,
     fst (jsonrpc_endpoint (JObj m) hdr rand s) =
       Ok (Response (success_body id (pending_ack request_id)) 200))
  <-> m !! "method" = Some (JStr "add")
      /\ no_client_id hdr = false
      /\ missing_operand (default (JObj ∅) (m !! "params")) = Ok false.
Proof.
  intros He. rewrite (jsonrpc_endpoint_valid _ _ _ _ He). cbv zeta. split.
  - intros (id & rid & Hrun).
    destruct (eq_str (field m "method") "mcp_discover") eqn:Hd.
    { simpl in Hrun. assert (Hb := f_equal body_of Hrun). simpl in Hb.
      apply (f_equal (fun b => member b "result"
                                 ≫= fun r => member r "status")) in Hb.
      discriminate Hb. }
    destruct (no_client_id hdr) eqn:Hc; [discriminate Hrun|].
    simpl in Hrun.
    destruct (eq_str (field m "method") "add") eqn:Ha;
      [|discriminate Hrun].
    split; [by apply eq_str_field|]. split; [done|].
    destruct (missing_operand _) as [[|]|]; by try discriminate Hrun.
  - intros (Hm & Hc & Hmiss).
    rewrite Hc, andb_false_r, (eq_str_field_true _ _ "add") by done.
    rewrite eq_str_field_false by (rewrite Hm; congruence).
    rewrite Hmiss. simpl. eauto.
Qed.

Lemma add_accepted_exactly_witness :
  missing_operand (default (JObj ∅) (scenario_request !! "params")) =
    Ok false.
Proof.
  apply (proj1 (add_accepted_exactly scenario_request (Some "abc") 0
                  (registered "abc") eq_refl)).
  exists (JInt 1), "00000000-0000-4000-8000-000000000000". reflexivity.
Defined.

(** X15: the handler does not look whether the tracking identifier it
    drew is already pending: the record of the earlier job is
    overwritten with the client identifier of the new request, without
    an error; no other record changes and the number of records stays
    the same. *)
Theorem duplicate_id_overwrites m p hdr a b rand s earlier :
  add_submission m p hdr a b ->
  let request_id := Uuid.str (Uuid.uuid4 rand) in
  pending_requests s !! request_id = Some earlier ->
  let out := jsonrpc_endpoint (JObj m) hdr rand s in
  fst out =
    Ok (Response (success_body (field m "id") (pending_ack request_id)) 200)
  /\ pending_requests (snd out) !! request_id = Some hdr
  /\ (forall k, k <> request_id ->
        pending_requests (snd out) !! k = pending_requests s !! k)
  /\ size (pending_requests (snd out)) = size (pending_requests s).
Proof.
  intros Hsub request_id Hold out. unfold out.
  rewrite (jsonrpc_endpoint_add m p hdr a b rand s Hsub). simpl.
  split; [done|]. split; [apply lookup_insert_eq|]. split.
  - intros k Hk. by apply lookup_insert_ne.
  - rewrite <- (insert_delete_eq (pending_requests s)).
    rewrite <- (insert_id (pending_requests s) request_id earlier) at 2
      by done.
    rewrite <- (insert_delete_eq (pending_requests s) request_id earlier).
    by rewrite !map_size_insert_None by apply lookup_delete_eq.
Qed.

Lemma duplicate_id_overwrites_witness :
  let request_id := "00000000-0000-4000-8000-000000000000" in
  let s := set_pending_requests (<[request_id := Some "xyz"]>) two_clients in
  let out := jsonrpc_endpoint (JObj scenario_request) (Some "abc") 0 s in
  pending_requests (snd out) !! request_id = Some (Some "abc")
  /\ size (pending_requests (snd out)) = size (pending_requests s).
Proof.
  intros request_id s out.
  destruct (duplicate_id_overwrites scenario_request scenario_params
              (Some "abc") (JInt 2) (JInt 3) 0 s (Some "xyz")
              scenario_submission eq_refl) as (_ & Hnew & _ & Hsize).
  split; [exact Hnew | exact Hsize].
Defined.

(** ** The executor *)

(** X5: a [params] that is a list or a string passes the handler's
    check as soon as it contains ["a"] and ["b"] (as elements, or as
    substrings), so the job is acknowledged as pending; its executor
    then raises [TypeError] on [params['a']], before it notifies anyone
    and before its clean-up: no event is sent and the record of the job
    stays in [pending_requests]. *)
Theorem sequence_params_accepted_then_crash m hdr params rand s :
  m !! "jsonrpc" = Some (JStr "2.0") ->
  m !! "method" = Some (JStr "add") ->
  no_client_id hdr = false ->
  m !! "params" = Some params ->
  sequence params = true ->
  missing_operand params = Ok false ->
  let request_id := Uuid.str (Uuid.uuid4 rand) in
  let s1 := accepted request_id params hdr s in
  jsonrpc_endpoint (JObj m) hdr rand s =
    (Ok (Response (success_body (field m "id") (pending_ack request_id))
           200), s1)
  /\ process_add request_id params hdr s1 = (Raise TypeError, s1)
  /\ pending_requests s1 !! request_id = Some hdr.
Proof.
  intros He Hm Hc Hp Hseq Hmiss request_id s1. split; [|split].
  - rewrite (jsonrpc_endpoint_valid _ _ _ _ He). cbv zeta.
    rewrite Hc, andb_false_r, (eq_str_field_true _ _ "add") by done.
    rewrite eq_str_field_false by (rewrite Hm; congruence).
    rewrite Hp. simpl. by rewrite Hmiss.
  - apply process_add_crash. by destruct params.
  - simpl. apply lookup_insert_eq.
Qed.

Lemma sequence_params_accepted_then_crash_witness :
  let m : gmap string json :=
    {[ "jsonrpc" := JStr "2.0"; "method" := JStr "add";
       "params" := JArr [JStr "a"; JStr "b"] ]} in
  let request_id := "00000000-0000-4000-8000-000000000000" in
  let s1 :=
    accepted request_id (JArr [JStr "a"; JStr "b"]) (Some "abc")
      (registered "abc") in
  process_add request_id (JArr [JStr "a"; JStr "b"]) (Some "abc") s1 =
    (Raise TypeError, s1).
Proof.
  intros m request_id s1.
  destruct (sequence_params_accepted_then_crash m (Some "abc")
              (JArr [JStr "a"; JStr "b"]) 0 (registered "abc")
              eq_refl eq_refl eq_refl eq_refl eq_refl eq_refl)
    as (_ & Hcrash & _).
  exact Hcrash.
Defined.

(** X6: when the operands of an accepted [add] cannot be added (one is
    [null], say, or a string and the other a number), the executor
    raises before [notify_client]: nothing is appended to any queue,
    and the record the handler made for the job is never removed. *)
Theorem unaddable_operands_leak_record m p hdr a b e rand s :
  add_submission m p hdr a b ->
  Py.add a b = Raise e ->
  let request_id := Uuid.str (Uuid.uuid4 rand) in
  let s1 := snd (jsonrpc_endpoint (JObj m) hdr rand s) in
  process_add request_id (JObj p) hdr s1 = (Raise e, s1)
  /\ pending_requests s1 !! request_id = Some hdr
  /\ heap s1 = heap s.
Proof.
  intros Hsub Hadd request_id s1. unfold s1.
  rewrite (jsonrpc_endpoint_add m p hdr a b rand s Hsub). simpl.
  split; [|split; [apply lookup_insert_eq | done]].
  apply process_add_crash. destruct Hsub.
  by rewrite (sum_of_params_obj p a b).
Qed.

Lemma unaddable_operands_leak_record_witness :
  let p : gmap string json := {[ "a" := JNull; "b" := JInt 3 ]} in
  let m : gmap string json :=
    {[ "jsonrpc" := JStr "2.0"; "method" := JStr "add"; "params" := JObj p ]}
  in
  let request_id := "00000000-0000-4000-8000-000000000000" in
  let s1 := snd (jsonrpc_endpoint (JObj m) (Some "abc") 0 (registered "abc"))
  in
  process_add request_id (JObj p) (Some "abc") s1 = (Raise TypeError, s1)
  /\ pending_requests s1 !! request_id = Some (Some "abc").
Proof.
  intros p m request_id s1.
  assert (Hsub : add_submission m p (Some "abc") JNull (JInt 3))
    by (split; reflexivity).
  destruct (unaddable_operands_leak_record m p (Some "abc") JNull (JInt 3)
              TypeError 0 (registered "abc") Hsub eq_refl)
    as (Hcrash & Hrec & _).
  split; [exact Hcrash | exact Hrec].
Defined.

(** X7: accepting a job and running its executor to the end is a round
    trip on [pending_requests]: in between the tracking identifier is
    bound to the client identifier of the request, and afterwards, if
    the identifier was not pending before, the dictionary is the one
    before the request. *)
Theorem job_record_round_trip m p hdr a b r rand s :
  add_submission m p hdr a b ->
  Py.add a b = Ok r ->
  let request_id := Uuid.str (Uuid.uuid4 rand) in
  pending_requests s !! request_id = None ->
  let s1 := snd (jsonrpc_endpoint (JObj m) hdr rand s) in
  let s2 := snd (process_add request_id (JObj p) hdr s1) in
  pending_requests s1 !! request_id = Some hdr
  /\ pending_requests s2 = pending_requests s
  /\ threads s2 = threads s ++ [Started (Task request_id (JObj p) hdr)].
Proof.
  intros Hsub Hadd request_id Hfresh s1 s2.
  unfold s2, s1, request_id in *. clear s1 s2 request_id.
  rewrite (jsonrpc_endpoint_add m p hdr a b rand s Hsub). simpl.
  split; [apply lookup_insert_eq|].
  rewrite (process_add_ok _ _ _ r)
    by (destruct Hsub; by rewrite (sum_of_params_obj p a b)).
  pose proof (notify_client_frame hdr "result"
                (result_event (Uuid.str (Uuid.uuid4 rand)) r)
                (accepted (Uuid.str (Uuid.uuid4 rand)) (JObj p) hdr s))
    as (_ & Hpend & _ & Hthreads & _).
  cbn [snd set_pending_requests pending_requests threads].
  cbv zeta in Hpend, Hthreads. rewrite Hpend, Hthreads. simpl.
  split; [|done]. by rewrite delete_insert_id.
Qed.

Lemma job_record_round_trip_witness :
  let request_id := "00000000-0000-4000-8000-000000000000" in
  let s1 :=
    snd (jsonrpc_endpoint (JObj scenario_request) (Some "abc") 0
           two_clients) in
  let s2 := snd (process_add request_id (JObj scenario_params)
                   (Some "abc") s1) in
  pending_requests s1 !! request_id = Some (Some "abc")
  /\ pending_requests s2 = pending_requests two_clients.
Proof.
  intros request_id s1 s2.
  destruct (job_record_round_trip scenario_request scenario_params
              (Some "abc") (JInt 2) (JInt 3) (JInt 5) 0 two_clients
              scenario_submission eq_refl eq_refl) as (Hin & Hout & _).
  split; [exact Hin | exact Hout].
Defined.

(** X8: when the client of a job has no queue in [subscriptions] (or
    the job has no client identifier), the executor still computes the
    sum, [notify_client] drops it without an error, and the clean-up
    retires the job: the only change to the server is that the record
    is gone, and the result is nowhere in it. *)
Theorem unregistered_result_is_dropped request_id params client_id r s :
  sum_of_params params = Ok r ->
  subscribed s client_id = None ->
  process_add request_id params client_id s =
    (Ok tt, set_pending_requests (delete request_id) s)
  /\ heap (snd (process_add request_id params client_id s)) = heap s.
Proof.
  intros Hr Hc. rewrite (process_add_ok _ _ _ r) by done.
  by rewrite notify_client_unregistered.
Qed.

Lemma unregistered_result_is_dropped_witness :
  process_add "job-1" (JObj scenario_params) (Some "nobody") two_clients =
    (Ok tt, set_pending_requests (delete "job-1") two_clients).
Proof.
  destruct (unregistered_result_is_dropped "job-1" (JObj scenario_params)
              (Some "nobody") (JInt 5) two_clients eq_refl eq_refl)
    as [Hrun _].
  exact Hrun.
Defined.

(** ** Invariants of the runs *)

Lemma advances_trans th1 th2 th3 :
  advances th1 th2 -> advances th2 th3 -> advances th1 th3.
Proof.
  intros H12 H23. inversion H12; subst; try done;
    inversion H23; subst; constructor.
Qed.

Lemma follows_trans g1 g2 g3 :
  follows g1 g2 -> follows g2 g3 -> follows g1 g3.
Proof.
  intros H12 H23. inversion H12; subst; try done;
    inversion H23; subst; constructor.
Qed.

Lemma same_control_notify request_id params client_id s :
  same_control s (snd (process_add_notify request_id params client_id s)).
Proof.
  destruct (sum_of_params params) as [r|e] eqn:Hr.
  - rewrite (process_add_notify_ok _ _ _ r) by done.
    pose proof (notify_client_frame client_id "result"
                  (result_event request_id r) s) as H.
    cbv zeta in H. unfold same_control. tauto.
  - by rewrite (process_add_notify_raise _ _ _ e).
Qed.

Lemma same_control_enter client_id s :
  same_control s (snd (generate_sse_enter client_id s)).
Proof.
  unfold generate_sse_enter. by destruct (subscriptions s !! client_id).
Qed.

Lemma same_control_test queue s :
  same_control s (snd (generate_sse_test queue s)).
Proof. unfold generate_sse_test. by repeat case_match. Qed.

Lemma same_control_pop json_dumps queue s :
  same_control s (snd (generate_sse_pop json_dumps queue s)).
Proof. unfold generate_sse_pop. by repeat case_match. Qed.

Section Invariants.

Variable json_dumps : json -> result string.

Lemma step_frame_same s s' :
  same_control s s' -> step_frame s s'.
Proof.
  intros (Hsubs & Hth & Hst). split; [done|]. rewrite Hth, Hst.
  split; intros i x Hx; exists x; split; done || constructor.
Qed.

Lemma step_frame_thread s s' i th th' :
  same_control s s' -> threads s !! i = Some th -> advances th th' ->
  step_frame s (set_threads (<[i := th']>) s').
Proof.
  intros (Hsubs & Hth & Hst) Hi Hadv. split; [done|]. simpl.
  rewrite Hth, Hst. split.
  - intros j x Hx. destruct (decide (i = j)) as [<- | Hne].
    + exists th'. split; [|congruence].
      apply list_lookup_insert_eq. by apply lookup_lt_Some in Hi.
    + exists x. rewrite list_lookup_insert_ne by done.
      split; [done | constructor].
  - intros j x Hx. exists x. split; done || constructor.
Qed.

Lemma step_frame_stream s s' i g g' :
  same_control s s' -> streams s !! i = Some g -> follows g g' ->
  step_frame s (set_streams (<[i := g']>) s').
Proof.
  intros (Hsubs & Hth & Hst) Hi Hfol. split; [done|]. simpl.
  rewrite Hth, Hst. split.
  - intros j x Hx. exists x. split; done || constructor.
  - intros j x Hx. destruct (decide (i = j)) as [<- | Hne].
    + exists g'. split; [|congruence].
      apply list_lookup_insert_eq. by apply lookup_lt_Some in Hi.
    + exists x. rewrite list_lookup_insert_ne by done.
      split; [done | constructor].
Qed.

Lemma step_keeps_frame s l : step_frame s (fst (step json_dumps s l)).
Proof.
  destruct l as [data hdr rand | client_id | i | i]; cbn [step].
  - pose proof (jsonrpc_endpoint_state data hdr rand s) as H.
    destruct (jsonrpc_endpoint data hdr rand s) as [r s']. simpl in *.
    destruct H as [-> | (rid & params & ->)].
    { by apply step_frame_same. }
    split; [done|]. simpl. split.
    + intros i th Hi. exists th. split; [|constructor].
      by apply lookup_app_l_Some.
    + intros i g Hi. exists g. split; done || constructor.
  - split; [done|]. simpl. split.
    + intros i th Hi. exists th. split; done || constructor.
    + intros i g Hi. exists g. split; [|constructor].
      by apply lookup_app_l_Some.
  - destruct (streams s !! i) as [[c | c q | c q | e]|] eqn:Hi.
    + pose proof (same_control_enter c s) as H.
      destruct (generate_sse_enter c s) as [[queue|e] s']; simpl in *;
        [|by apply step_frame_same].
      apply (step_frame_stream s s' i (Created c)); done || constructor.
    + pose proof (same_control_test q s) as H.
      destruct (generate_sse_test q s) as [[[]|e] s']; simpl in *;
        try by apply step_frame_same.
      apply (step_frame_stream s s' i (Polling c q)); done || constructor.
    + pose proof (same_control_pop json_dumps q s) as H.
      destruct (generate_sse_pop json_dumps q s) as [[[ev frame]|e] s'];
        simpl in *;
        apply (step_frame_stream s s' i (Popping c q)); done || constructor.
    + by apply step_frame_same.
    + by apply step_frame_same.
  - destruct (threads s !! i) as [[t | t | | e]|] eqn:Hi;
      try by apply step_frame_same.
    + pose proof (same_control_notify (task_request_id t) (task_params t)
                    (task_client_id t) s) as H.
      destruct (process_add_notify _ _ _ s) as [[[]|e] s']; simpl in *.
      * apply (step_frame_thread s s' i (Started t)); done || constructor.
      * apply (step_frame_thread s s' i (Started t)); done || constructor.
    + rewrite process_add_cleanup_spec.
      apply (step_frame_thread _ _ i (Notified t)); done || constructor.
Qed.

Lemma run_keeps_frame ls s : step_frame s (fst (run json_dumps s ls)).
Proof.
  revert s. induction ls as [|l ls IH]; intros s.
  { by apply step_frame_same. }
  cbn [run].
  pose proof (step_keeps_frame s l) as (Hsubs1 & Hth1 & Hst1).
  destruct (step json_dumps s l) as [s1 o1]. simpl in *.
  pose proof (IH s1) as (Hsubs2 & Hth2 & Hst2).
  destruct (run json_dumps s1 ls) as [s2 o2]. simpl in *.
  split; [congruence|]. split.
  - intros i th Hi. destruct (Hth1 i th Hi) as (th1 & Hi1 & Ha1).
    destruct (Hth2 i th1 Hi1) as (th2 & Hi2 & Ha2).
    exists th2. split; [done|]. by apply (advances_trans _ th1).
  - intros i g Hi. destruct (Hst1 i g Hi) as (g1 & Hi1 & Ha1).
    destruct (Hst2 i g1 Hi1) as (g2 & Hi2 & Ha2).
    exists g2. split; [done|]. by apply (follows_trans _ g1).
Qed.

Lemma run_app s ls1 ls2 :
  run json_dumps s (ls1 ++ ls2) =
    (fst (run json_dumps (fst (run json_dumps s ls1)) ls2),
     snd (run json_dumps s ls1)
       ++ snd (run json_dumps (fst (run json_dumps s ls1)) ls2)).
Proof.
  revert s. induction ls1 as [|l ls1 IH]; intros s.
  { simpl. by destruct (run json_dumps s ls2). }
  cbn [app run]. destruct (step json_dumps s l) as [s1 o1].
  rewrite IH. destruct (run json_dumps s1 ls1) as [s2 o2]. simpl.
  by rewrite app_assoc.
Qed.

(** X9: nothing the server does ever writes to [subscriptions]: after
    any sequence of requests, stream openings, stream iterations and
    executor steps, from any state, the registry of clients is the one
    at the start. *)
Theorem run_never_registers s ls :
  subscriptions (fst (run json_dumps s ls)) = subscriptions s.
Proof. by destruct (run_keeps_frame ls s) as (H & _). Qed.

(** X10: threads are never removed, restarted or given another job:
    along any run a thread stays at its index and only moves forward,
    from started to notified to finished, or from started to crashed;
    a finished or crashed thread stays as it is. *)
Theorem threads_only_advance s ls i th :
  threads s !! i = Some th ->
  exists th',
    threads (fst (run json_dumps s ls)) !! i = Some th'
    /\ advances th th'
    /\ (th = Finished -> th' = Finished)
    /\ (forall e, th = Crashed e -> th' = Crashed e)
    /\ (forall t, th = Notified t -> th' = Notified t \/ th' = Finished).
Proof.
  intros Hi. destruct (run_keeps_frame ls s) as (_ & Hth & _).
  destruct (Hth i th Hi) as (th' & Hi' & Hadv).
  exists th'. split; [done|]. split; [done|].
  split; [|split].
  - intros ->. by inversion Hadv.
  - intros e ->. by inversion Hadv.
  - intros t ->. inversion Hadv; subst; by (left + right).
Qed.

(** X11: a stream reads [subscriptions] once: along any run a stream
    stays at its index; once it has a list, it is either still on that
    same list for the same client, between the test and the pop or not,
    or it has ended with an exception; a stream that has ended stays
    ended, with the same exception. *)
Theorem streams_keep_their_queue s ls i g :
  streams s !! i = Some g ->
  exists g',
    streams (fst (run json_dumps s ls)) !! i = Some g'
    /\ follows g g'
    /\ (forall client_id queue,
          g = Polling client_id queue \/ g = Popping client_id queue ->
          g' = Polling client_id queue \/ g' = Popping client_id queue
          \/ exists e, g' = Ended e)
    /\ (forall client_id,
          g = Created client_id ->
          g' = Created client_id
          \/ (exists queue,
                g' = Polling client_id queue \/ g' = Popping client_id queue)
          \/ exists e, g' = Ended e)
    /\ (forall e, g = Ended e -> g' = Ended e).
Proof.
  intros Hi. destruct (run_keeps_frame ls s) as (_ & _ & Hst).
  destruct (Hst i g Hi) as (g' & Hi' & Hfol).
  exists g'. split; [done|]. split; [done|]. split; [|split].
  - intros client_id queue [-> | ->]; inversion Hfol; subst; eauto.
  - intros client_id ->. inversion Hfol; subst; eauto 6.
  - intros e ->. by inversion Hfol.
Qed.

Lemma step_no_append q s l :
  (forall c, subscriptions s !! c <> Some q) ->
  appended_to q (snd (step json_dumps s l)) = [].
Proof.
  intros Hq. destruct l as [data hdr rand | client_id | i | i]; cbn [step].
  - by destruct (jsonrpc_endpoint data hdr rand s).
  - done.
  - repeat case_match; done.
  - destruct (threads s !! i) as [[t | t | | e]|]; try done.
    destruct (process_add_notify _ _ _ s) as [[[]|e] s']; [|done].
    unfold pending_event, subscribed. simpl.
    destruct (sum_of_params _); [|done].
    destruct (task_client_id t) as [c|]; simpl; [|done].
    destruct (subscriptions s !! c) as [q0|] eqn:Hc; [|done].
    unfold appended_to. simpl.
    destruct (decide (q0 = q)) as [-> | Hne]; [|done].
    by destruct (Hq c).
Qed.

Lemma run_no_append q ls s :
  (forall c, subscriptions s !! c <> Some q) ->
  appended_to q (snd (run json_dumps s ls)) = [].
Proof.
  revert s. induction ls as [|l ls IH]; intros s Hq; [done|]. cbn [run].
  pose proof (step_no_append q s l Hq) as Ho1.
  pose proof (step_keeps_frame s l) as (Hsubs & _).
  destruct (step json_dumps s l) as [s1 o1]. simpl in *.
  assert (Hq1 : forall c, subscriptions s1 !! c <> Some q)
    by (by rewrite Hsubs).
  pose proof (IH s1 Hq1) as Ho2.
  destruct (run json_dumps s1 ls) as [s2 o2]. simpl in *.
  unfold appended_to in *. by rewrite omap_app, Ho1, Ho2.
Qed.

(** X12: a stream opened for a client identifier that has no queue in
    [subscriptions] gets a new, empty list that no client is registered
    with; whatever the server does afterwards, nothing is ever appended
    to that list and the stream never yields a frame. *)
Theorem unregistered_stream_starves s client_id ls :
  well_formed s ->
  subscriptions s !! client_id = None ->
  let opened := generate_sse_enter client_id s in
  let queue := fresh (dom (heap s)) in
  let final := run json_dumps (snd opened) ls in
  fst opened = Ok queue
  /\ heap s !! queue = None
  /\ (forall c, subscriptions s !! c <> Some queue)
  /\ appended_to queue (snd final) = []
  /\ yielded_from queue (snd final) = []
  /\ content (fst final) queue = [].
Proof.
  intros Hwf Hc opened queue final.
  assert (Hfresh : heap s !! queue = None).
  { apply not_elem_of_dom. apply is_fresh. }
  assert (Hrange : forall c, subscriptions s !! c <> Some queue).
  { intros c Hq. destruct (wf_allocated s Hwf c queue Hq) as [l Hl].
    congruence. }
  assert (Hopen : opened = (Ok queue, set_heap (<[queue := []]>) s)).
  { unfold opened, generate_sse_enter. by rewrite Hc. }
  unfold final. rewrite Hopen. simpl.
  set (s1 := set_heap (<[queue := []]>) s).
  assert (Hwf1 : well_formed s1).
  { apply (well_formed_ext s); [done| |done]. simpl. intros q' Hq'.
    destruct (decide (queue = q')) as [<- | Hne].
    - by rewrite lookup_insert_eq.
    - by rewrite lookup_insert_ne. }
  pose proof (run_no_append queue ls s1 Hrange) as Happ.
  pose proof (run_queue json_dumps queue ls s1 Hwf1)
    as (_ & _ & Hq & Hy & _).
  rewrite Happ in Hq. unfold content at 2 in Hq. simpl in Hq.
  rewrite lookup_insert_eq in Hq. simpl in Hq.
  apply app_eq_nil in Hq as [Hp Hcont]. rewrite Hp in Hy. done.
Qed.

Lemma turn_on_empty s i client_id queue :
  streams s !! i = Some (Polling client_id queue) ->
  heap s !! queue = Some [] ->
  step json_dumps s (Iterate i) = (s, []).
Proof.
  intros Hi Hl. cbn [step]. rewrite Hi. unfold generate_sse_test.
  by rewrite Hl.
Qed.

Lemma turn_on_event s i client_id queue ev rest :
  streams s !! i = Some (Polling client_id queue) ->
  heap s !! queue = Some (ev :: rest) ->
  run json_dumps s [Iterate i; Iterate i] =
    match json_dumps (snd ev) with
    | Ok text =>
        (set_streams (<[i := Polling client_id queue]>)
           (set_heap (<[queue := rest]>)
              (set_streams (<[i := Popping client_id queue]>) s)),
         [Yielded i queue ev (sse_frame (fst ev) text)])
    | Raise e =>
        (set_streams (<[i := Ended e]>)
           (set_heap (<[queue := rest]>)
              (set_streams (<[i := Popping client_id queue]>) s)),
         [Dropped i queue ev e])
    end.
Proof.
  intros Hi Hl. cbn [run step]. rewrite Hi. unfold generate_sse_test.
  rewrite Hl.
  set (s1 := set_streams (<[i := Popping client_id queue]>) s).
  assert (Hi1 : streams s1 !! i = Some (Popping client_id queue)).
  { unfold s1. simpl. apply list_lookup_insert_eq.
    by apply lookup_lt_Some in Hi. }
  assert (Hl1 : heap s1 !! queue = Some (ev :: rest)) by done.
  rewrite Hi1. unfold generate_sse_pop, oldest. rewrite Hl1. simpl.
  by destruct (json_dumps (snd ev)).
Qed.

(** X13: while [json.dumps] returns on their data, [n] turns of the
    loop of a stream, each a test and a pop, hand out the [n] oldest
    events of its list, oldest first, each in its frame, and leave the
    rest in the list and the stream at the test; turns beyond the
    length of the list yield nothing and change nothing. *)
Theorem stream_drains_in_order s i client_id queue l n :
  streams s !! i = Some (Polling client_id queue) ->
  heap s !! queue = Some l ->
  Forall (fun ev => is_Some (frame_of json_dumps ev)) (take n l) ->
  let final :=
    run json_dumps s (concat (replicate n [Iterate i; Iterate i])) in
  snd final =
    omap (fun ev => Yielded i queue ev <$> frame_of json_dumps ev)
      (take n l)
  /\ length (snd final) = Nat.min n (length l)
  /\ heap (fst final) !! queue = Some (drop n l)
  /\ streams (fst final) !! i = Some (Polling client_id queue)
  /\ yielded_from queue (snd final) = take n l
  /\ frames_from queue (snd final) =
       omap (frame_of json_dumps) (take n l).
Proof.
  intros Hi Hl Hok final.
  assert (H :
    snd final =
      omap (fun ev => Yielded i queue ev <$> frame_of json_dumps ev)
        (take n l)
    /\ heap (fst final) !! queue = Some (drop n l)
    /\ streams (fst final) !! i = Some (Polling client_id queue)).
  { unfold final. clear final. revert s l Hi Hl Hok.
    induction n as [|n IH]; intros s l Hi Hl Hok; [done|].
    cbn [replicate concat]. rewrite run_app.
    destruct l as [|ev rest].
    - cbn [run]. rewrite !(turn_on_empty s i client_id queue) by done.
      simpl. specialize (IH s [] Hi Hl).
      rewrite take_nil, drop_nil in IH. by apply IH.
    - rewrite (turn_on_event s i client_id queue ev rest) by done.
      rewrite firstn_cons in Hok. apply Forall_cons in Hok as [Hev Hok].
      unfold frame_of in Hev.
      destruct (json_dumps (snd ev)) as [text|e] eqn:Hdumps;
        [|by destruct Hev].
      set (s2 := set_streams _ (set_heap _ (set_streams _ s))).
      assert (Hi2 : streams s2 !! i = Some (Polling client_id queue)).
      { unfold s2. simpl. apply list_lookup_insert_eq.
        rewrite length_insert. by apply lookup_lt_Some in Hi. }
      assert (Hl2 : heap s2 !! queue = Some rest)
        by apply lookup_insert_eq.
      destruct (IH s2 rest Hi2 Hl2 Hok) as (Ho & Hh & Hs).
      cbn [fst snd app take drop omap list_omap].
      unfold frame_of at 1. rewrite Hdumps. simpl. by rewrite Ho. }
  destruct H as (Hobs & Hheap & Hstream).
  assert (Hall : forall l',
    Forall (fun ev => is_Some (frame_of json_dumps ev)) l' ->
    let os :=
      omap (fun ev => Yielded i queue ev <$> frame_of json_dumps ev) l' in
    length os = length l'
    /\ yielded_from queue os = l'
    /\ frames_from queue os = omap (frame_of json_dumps) l').
  { induction l' as [|ev l' IH]; intros Hl'; [done|].
    apply Forall_cons in Hl' as [[frame Hev] Hl'].
    destruct (IH Hl') as (H1 & H2 & H3). cbv zeta in *.
    unfold yielded_from, frames_from in *.
    cbn [omap list_omap]. rewrite Hev.
    cbn [fmap option_fmap option_map omap list_omap length].
    rewrite !decide_True by done. by rewrite H1, H2, H3. }
  destruct (Hall (take n l) Hok) as (H1 & H2 & H3).
  rewrite Hobs. split; [done|]. split.
  { by rewrite H1, length_take. }
  done.
Qed.

(** X18: the first event [json.dumps] raises on ends the stream: when
    it returns on the data of the [k] oldest events of the list and
    raises on the next, [k + 1] turns of the loop yield the frames of
    those [k] events, take the next event off the list without any
    frame, and leave the stream ended with that exception; the events
    behind it stay in the list, and no later step of this stream yields
    or removes anything. *)
Theorem stream_ends_at_first_unprintable s i client_id queue l k ev e ls :
  streams s !! i = Some (Polling client_id queue) ->
  heap s !! queue = Some l ->
  Forall (fun ev => is_Some (frame_of json_dumps ev)) (take k l) ->
  l !! k = Some ev ->
  json_dumps (snd ev) = Raise e ->
  let turns := concat (replicate (S k) [Iterate i; Iterate i]) in
  let ended := run json_dumps s turns in
  let final := run json_dumps (fst ended) (map Iterate (replicate ls i)) in
  snd ended =
    omap (fun ev => Yielded i queue ev <$> frame_of json_dumps ev)
      (take k l)
    ++ [Dropped i queue ev e]
  /\ frames_from queue (snd ended) =
       omap (frame_of json_dumps) (take k l)
  /\ length (frames_from queue (snd ended)) = k
  /\ heap (fst ended) !! queue = Some (drop (S k) l)
  /\ streams (fst ended) !! i = Some (Ended e)
  /\ final = (fst ended, []).
Proof.
  intros Hi Hl Hok Hk Hev turns ended final.
  assert (Hturns : turns =
    concat (replicate k [Iterate i; Iterate i]) ++ [Iterate i; Iterate i]).
  { unfold turns. clear. induction k as [|k IH]; [done|].
    change (S (S k)) with (1 + S k)%nat. cbn [replicate concat Nat.add].
    cbn [replicate concat] in IH. rewrite IH at 1. by rewrite <- !app_assoc. }
  destruct (stream_drains_in_order s i client_id queue l k Hi Hl Hok)
    as (Hobs & Hlen & Hheap & Hstream & Hy & Hf).
  cbv zeta in *.
  set (mid := run json_dumps s (concat (replicate k [Iterate i; Iterate i])))
    in *.
  assert (Hdrop : drop k l = ev :: drop (S k) l).
  { by apply drop_S. }
  rewrite Hdrop in Hheap.
  assert (Hended : ended =
    (set_streams (<[i := Ended e]>)
       (set_heap (<[queue := drop (S k) l]>)
          (set_streams (<[i := Popping client_id queue]>) (fst mid))),
     snd mid ++ [Dropped i queue ev e])).
  { unfold ended. rewrite Hturns, run_app. fold mid.
    rewrite (turn_on_event (fst mid) i client_id queue ev (drop (S k) l))
      by done.
    by rewrite Hev. }
  assert (Hlast : streams (fst ended) !! i = Some (Ended e)).
  { rewrite Hended. simpl. apply list_lookup_insert_eq.
    rewrite length_insert. by apply lookup_lt_Some in Hstream. }
  split; [by rewrite Hended, Hobs|]. split; [|split; [|split; [|split]]].
  - rewrite Hended. simpl. unfold frames_from in *.
    by rewrite omap_app, Hf, app_nil_r.
  - rewrite Hended. simpl. unfold frames_from in *.
    rewrite omap_app, Hf, app_nil_r.
    assert (Hsame : forall l',
      Forall (fun ev => is_Some (frame_of json_dumps ev)) l' ->
      length (omap (frame_of json_dumps) l') = length l').
    { induction l' as [|x l' IH]; intros Hl'; [done|].
      apply Forall_cons in Hl' as [[frame Hx] Hl'].
      cbn [omap list_omap]. rewrite Hx. cbn [length]. by rewrite IH. }
    rewrite Hsame by done. rewrite length_take.
    apply lookup_lt_Some in Hk. lia.
  - rewrite Hended. simpl. apply lookup_insert_eq.
  - done.
  - unfold final. generalize (fst ended) Hlast. clear.
    induction ls as [|n IH]; intros s Hs; [done|].
    cbn [replicate map run step]. rewrite Hs. by rewrite (IH s Hs).
Qed.


(** X16: registration given, the pieces fit: on a server where client
    [c] has an empty queue and a stream polling it, posting an [add]
    whose operands add up to [r], letting the new thread run its two
    sections and turning the stream once, test and pop, answers the
    request with the pending acknowledgment, appends the result event
    to the queue and, when [json.dumps] returns [text] on the event,
    yields the frame of that text on the stream; afterwards the thread
    is finished, the record of the job is gone and the queue is empty
    again. *)
Theorem add_end_to_end s m p c a b r rand i queue text :
  add_submission m p (Some c) a b ->
  Py.add a b = Ok r ->
  subscriptions s !! c = Some queue ->
  heap s !! queue = Some [] ->
  streams s !! i = Some (Polling c queue) ->
  json_dumps (result_event (Uuid.str (Uuid.uuid4 rand)) r) = Ok text ->
  let n := length (threads s) in
  let request_id := Uuid.str (Uuid.uuid4 rand) in
  let ev := ("result", result_event request_id r) in
  let final :=
    run json_dumps s
      [Post (JObj m) (Some c) rand; Run n; Run n; Iterate i; Iterate i]
  in
  snd final =
    [Responded
       (Ok (Response (success_body (field m "id") (pending_ack request_id))
              200));
     Appended queue ev;
     Yielded i queue ev
       ("event: result" +:+ String "010" "" +:+
        "data: " +:+ text +:+ String "010" "" +:+ String "010" "")]
  /\ threads (fst final) !! n = Some Finished
  /\ pending_requests (fst final) !! request_id = None
  /\ heap (fst final) !! queue = Some []
  /\ streams (fst final) !! i = Some (Polling c queue).
Proof.
  intros Hsub Hadd Hc Hq Hi Htext n request_id ev final.
  pose proof Hsub as [_ _ _ _ Ha Hb].
  assert (Hsum : sum_of_params (JObj p) = Ok r)
    by (by rewrite (sum_of_params_obj p a b)).
  pose proof (lookup_lt_Some _ _ _ Hi) as Hlt.
  unfold final. cbn [run step].
  rewrite (jsonrpc_endpoint_add m p (Some c) a b rand s Hsub).
  fold request_id.
  set (s1 := accepted request_id (JObj p) (Some c) s).
  assert (H1 : threads s1 !! n =
               Some (Started (Task request_id (JObj p) (Some c)))).
  { unfold s1. simpl. by rewrite lookup_app_r, Nat.sub_diag. }
  rewrite H1. cbn [task_request_id task_params task_client_id].
  rewrite (process_add_notify_ok _ _ _ r) by done.
  assert (Hsub1 : subscribed s1 (Some c) = Some queue) by done.
  rewrite (notify_client_registered _ _ _ _ queue) by done.
  unfold pending_event.
  cbn [task_request_id task_params task_client_id].
  rewrite Hsum, Hsub1.
  set (s2 := set_threads _ (set_heap _ s1)).
  assert (H2 : threads s2 !! n =
               Some (Notified (Task request_id (JObj p) (Some c)))).
  { unfold s2. simpl. apply list_lookup_insert_eq.
    rewrite length_app. simpl. lia. }
  rewrite H2. cbn [task_request_id].
  rewrite process_add_cleanup_spec.
  set (s3 := set_threads _ (set_pending_requests _ s2)).
  assert (H3 : streams s3 !! i = Some (Polling c queue)) by done.
  rewrite H3.
  assert (H4 : heap s3 !! queue = Some [ev]).
  { unfold s3, s2, s1. simpl. by rewrite lookup_alter_eq, Hq. }
  unfold generate_sse_test. rewrite H4.
  set (s4 := set_streams _ s3).
  assert (H5 : streams s4 !! i = Some (Popping c queue)).
  { unfold s4. simpl. by apply list_lookup_insert_eq. }
  assert (H6 : heap s4 !! queue = Some [ev]) by done.
  rewrite H5. unfold generate_sse_pop. rewrite H6.
  fold request_id in Htext.
  change (snd ev) with (result_event request_id r). rewrite Htext. simpl.
  split; [done|]. split; [|split; [|split]].
  - rewrite list_lookup_insert_eq; [done|].
    rewrite length_insert, length_app. simpl. lia.
  - apply lookup_delete_eq.
  - apply lookup_insert_eq.
  - apply list_lookup_insert_eq. by rewrite length_insert.
Qed.

End Invariants.

Lemma add_end_to_end_witness :
  let s :=
    set_streams (fun _ => [Polling "abc" 0%nat]) two_clients in
  let ev :=
    ("result",
     result_event "00000000-0000-4000-8000-000000000000" (JInt 5)) in
  snd (run constant_dumps s
         [Post (JObj scenario_request) (Some "abc") 0; Run 0; Run 0;
          Iterate 0; Iterate 0]) =
    [Responded
       (Ok (Response
              (success_body (JInt 1)
                 (pending_ack "00000000-0000-4000-8000-000000000000"))
              200));
     Appended 0 ev;
     Yielded 0 0 ev
       ("event: result" +:+ String "010" "" +:+
        "data: {}" +:+ String "010" "" +:+ String "010" "")].
Proof.
  intros s ev.
  destruct (add_end_to_end constant_dumps s scenario_request
              scenario_params "abc" (JInt 2) (JInt 3) (JInt 5) 0 0%nat 0%nat
              "{}" scenario_submission eq_refl eq_refl eq_refl eq_refl
              eq_refl)
    as (Hobs & _).
  exact Hobs.
Defined.

Lemma threads_only_advance_witness :
  let t :=
    Task "00000000-0000-4000-8000-000000000000" (JObj scenario_params)
      (Some "xyz") in
  let s1 := accepted (task_request_id t) (task_params t) (Some "xyz")
              two_clients in
  exists th',
    threads (fst (run constant_dumps s1 [Run 0; Run 0; Run 0])) !! 0%nat =
      Some th'
    /\ advances (Started t) th'.
Proof.
  intros t s1.
  destruct (threads_only_advance constant_dumps s1 [Run 0; Run 0; Run 0]
              0%nat (Started t) eq_refl) as (th' & Hi & Hadv & _).
  exists th'. split; [exact Hi | exact Hadv].
Defined.

Lemma streams_keep_their_queue_witness :
  exists g',
    streams (fst (run constant_dumps two_streams
                    [Iterate 1; Open "abc"; Iterate 1; Iterate 2]))
      !! 1%nat = Some g'
    /\ follows (Polling "xyz" 1) g'.
Proof.
  destruct (streams_keep_their_queue constant_dumps two_streams
              [Iterate 1; Open "abc"; Iterate 1; Iterate 2] 1%nat
              (Polling "xyz" 1) eq_refl) as (g' & Hi & Hfol & _).
  exists g'. split; [exact Hi | exact Hfol].
Defined.

Lemma unregistered_stream_starves_witness :
  let opened := generate_sse_enter "nobody" two_clients in
  let final :=
    run constant_dumps (snd opened)
      [Open "nobody"; Post (JObj scenario_request) (Some "nobody") 0;
       Run 0; Run 0; Iterate 0; Iterate 0] in
  fst opened = Ok 2%nat /\ yielded_from 2 (snd final) = [].
Proof.
  intros opened final.
  destruct (unregistered_stream_starves constant_dumps two_clients "nobody"
              [Open "nobody"; Post (JObj scenario_request) (Some "nobody") 0;
               Run 0; Run 0; Iterate 0; Iterate 0]
              well_formed_two_clients eq_refl)
    as (Hopen & _ & _ & _ & Hy & _).
  split; [exact Hopen | exact Hy].
Defined.

Lemma stream_drains_in_order_witness :
  let final :=
    run constant_dumps two_streams
      (concat (replicate 3 [Iterate 1; Iterate 1])) in
  yielded_from 1 (snd final) = [("result", JInt 2)]
  /\ heap (fst final) !! 1%nat = Some [].
Proof.
  intros final.
  assert (Hok : Forall (fun ev => is_Some (frame_of constant_dumps ev))
                  (take 3 [("result", JInt 2)])).
  { repeat constructor. by eexists. }
  destruct (stream_drains_in_order constant_dumps two_streams 1 "xyz" 1
              [("result", JInt 2)] 3 eq_refl eq_refl Hok)
    as (_ & _ & Hheap & _ & Hy & _).
  split; [exact Hy | exact Hheap].
Defined.

Lemma stream_ends_at_first_unprintable_witness :
  let dumps := dumps_within_limit (fun _ => "{}") in
  let ended := run dumps one_long_result [Iterate 0; Iterate 0] in
  snd ended = [Dropped 0 0 long_result ValueError]
  /\ streams (fst ended) !! 0%nat = Some (Ended ValueError)
  /\ heap (fst ended) !! 0%nat = Some [("result", JInt 7)].
Proof.
  intros dumps ended.
  assert (Hev : dumps (snd long_result) = Raise ValueError)
    by (vm_compute; reflexivity).
  destruct (stream_ends_at_first_unprintable dumps one_long_result 0 "abc" 0
              [long_result; ("result", JInt 7)] 0 long_result ValueError 2
              eq_refl eq_refl (Forall_nil_2 _) eq_refl Hev)
    as (Hobs & _ & _ & Hheap & Hstream & _).
  split; [exact Hobs|]. split; [exact Hstream | exact Hheap].
Defined.



(** ** The model on concrete inputs *)

Example str_uuid4_zero :
  Uuid.str (Uuid.uuid4 0) = "00000000-0000-4000-8000-000000000000".
Proof. reflexivity. Qed.

Example str_uuid4_ones :
  Uuid.str (Uuid.uuid4 (Z.ones 128)) = "ffffffff-ffff-4fff-bfff-ffffffffffff".
Proof. reflexivity. Qed.

Example add_int : Py.add (JInt 2) (JInt 3) = Ok (JInt 5).
Proof. reflexivity. Qed.

Example add_bool : Py.add (JBool true) (JInt 3) = Ok (JInt 4).
Proof. reflexivity. Qed.

Example add_float : Py.add (JInt 1) (JFloat 0.5) = Ok (JFloat 1.5).
Proof. reflexivity. Qed.

Example add_str : Py.add (JStr "2") (JStr "3") = Ok (JStr "23").
Proof. reflexivity. Qed.

Example add_null : Py.add JNull (JInt 3) = Raise TypeError.
Proof. reflexivity. Qed.

Example add_overflow :
  Py.add (JInt (10 ^ 400)) (JFloat 1) = Raise OverflowError.
Proof. vm_compute. reflexivity. Qed.

(** A body that is not an object and not falsy makes the handler raise:
    [5] is not a container, and a list cannot be indexed by a string. *)
Example post_number :
  jsonrpc_endpoint (JInt 5) (Some "abc") 0 init_subscriptions =
    (Raise TypeError, init_subscriptions).
Proof. reflexivity. Qed.

Example post_list :
  jsonrpc_endpoint (JArr [JStr "jsonrpc"]) (Some "abc") 0 init_subscriptions
    = (Raise TypeError, init_subscriptions).
Proof. reflexivity. Qed.

(** An empty [X-Client-ID] counts as a missing one. *)
Example post_empty_client_id :
  fst (jsonrpc_endpoint (JObj scenario_request) (Some "") 0
         init_subscriptions) =
    Ok (Response (error_body (-32600) "Missing X-Client-ID header" (JInt 1))
          400).
Proof. vm_compute. reflexivity. Qed.

(** The scenario on a server where [xyz] is registered: the pending
    event and then the result of the new job are yielded, in that
    order. *)
Example scenario_run :
  let ls :=
    [Post (JObj scenario_request) (Some "xyz") 0; Open "xyz"; Iterate 0;
     Iterate 0; Iterate 0; Run 0; Iterate 0; Iterate 0; Run 0] in
  let s' := fst (run constant_dumps two_clients ls) in
  let os := snd (run constant_dumps two_clients ls) in
  yielded_from 1 os =
    [("result", JInt 7);
     ("result",
      result_event "00000000-0000-4000-8000-000000000000" (JInt 5))]
  /\ threads s' = [Finished]
  /\ pending_requests s' = {[ "job-1" := Some "abc" ]}.
Proof. vm_compute. repeat split. Qed.

(** The same scenario on the server as it starts: the stream of [abc]
    polls a list of its own and the result is dropped. *)
Example scenario_run_unregistered :
  let ls :=
    [Open "abc"; Iterate 0; Post (JObj scenario_request) (Some "abc") 0;
     Run 0; Run 0; Iterate 0; Iterate 0] in
  let s' := fst (run constant_dumps init_subscriptions ls) in
  let os := snd (run constant_dumps init_subscriptions ls) in
  yield_order os = []
  /\ streams s' = [Polling "abc" 0]
  /\ heap s' = {[ 0%nat := [] ]}
  /\ subscriptions s' = ∅
  /\ threads s' = [Finished].
Proof. vm_compute. repeat split. Qed.
